(** * la-stock-watch: the ranking, enrichment and validation core

    A shallow embedding of [build.py] (the weekly-change variant) and of
    [build_top25.py] (the Top-25 variant).

    Modelling conventions.
    - Python numbers are exact rationals ([Q]): an [int] is its value, a
      [float] is read as the real number it denotes.  NaN, the infinities,
      the sign of zero and binary rounding error are outside the model.
    - A Python [dict] used as a map is a [gmap]; a dict used as a record is
      a Rocq record with one field per key.
    - The dicts built by the enrich loops are mutable objects that several
      lists may hold at once.  They live in a store ([heap]), and the Python
      lists hold references into it.
    - [None] is [None] of [option]; a dict key that may be absent is a
      [field]. *)

From Stdlib Require Import QArith Qabs Lqa.
From stdpp Require Import gmap strings list fin_maps sorting pretty.

Local Open Scope Q_scope.

(** ** Python numbers *)

Module Py.

(** [x < y], [x > y], [x >= y], [x <= y] and truthiness ([bool(x)]) on
    numbers. *)
Definition lt (x y : Q) : bool := negb (Qle_bool y x).
Definition gt (x y : Q) : bool := lt y x.
Definition ge (x y : Q) : bool := Qle_bool y x.
Definition le (x y : Q) : bool := Qle_bool x y.
Definition truthy (x : Q) : bool := negb (Qeq_bool x 0).

(** A value that is a number or [None]; [bool(None)] is [False]. *)
Definition truthy_opt (v : option Q) : bool :=
  match v with Some x => truthy x | None => false end.

(** [v and v > 0] in a condition, for [v] a number or [None]: the
    comparison is evaluated only when [v] is truthy. *)
Definition truthy_and_positive (v : option Q) : bool :=
  match v with
  | Some x => truthy x && gt x 0
  | None => false
  end.

(** [v or 0] for [v] a number or [None]. *)
Definition or_zero (v : option Q) : Q :=
  match v with
  | Some x => if truthy x then x else 0
  | None => 0
  end.

(** A key of a fetched dict: absent, present with [None], or a number. *)
Inductive field := Missing | Null | Num (x : Q).

(** [d.get(k, 0)] and [d.get(k)]. *)
Definition get0 (f : field) : option Q :=
  match f with Missing => Some 0 | Null => None | Num x => Some x end.
Definition get (f : field) : option Q :=
  match f with Missing => None | Null => None | Num x => Some x end.

(** Rounding to the nearest integer, ties to the even one. *)
Definition round_half_even (x : Q) : Z :=
  let n := Qnum x in
  let d := Z.pos (Qden x) in
  let q := (n `div` d)%Z in
  let r := (n `mod` d)%Z in
  match (2 * r ?= d)%Z with
  | Lt => q
  | Gt => (q + 1)%Z
  | Eq => if Z.even q then q else (q + 1)%Z
  end.

Definition pow10 (n : nat) : Z := (10 ^ Z.of_nat n)%Z.

(** [round(x, ndigits)]. *)
Definition round (x : Q) (ndigits : nat) : Q :=
  Qred (inject_Z (round_half_even (x * inject_Z (pow10 ndigits)))
        / inject_Z (pow10 ndigits)).

(** [abs(x)]. *)
Definition abs (x : Q) : Q := Qabs x.

(** ** Exceptions *)

Inductive exn := ValueError | TypeError | KeyError | AttributeError.

Inductive result (A : Type) :=
| Ok (a : A)
| Raise (e : exn).
Global Arguments Ok {A} a.
Global Arguments Raise {A} e.

Definition bind {A B} (r : result A) (k : A → result B) : result B :=
  match r with Ok a => k a | Raise e => Raise e end.

(** [min(l)] and [max(l)]: the first smallest (largest) item, found with
    [<] (with [>]); [ValueError] on an empty sequence. *)
Definition min_from (best : Q) (l : list Q) : Q :=
  foldl (λ best item, if lt item best then item else best) best l.
Definition max_from (best : Q) (l : list Q) : Q :=
  foldl (λ best item, if gt item best then item else best) best l.

Definition min (l : list Q) : result Q :=
  match l with [] => Raise ValueError | x :: l => Ok (min_from x l) end.
Definition max (l : list Q) : result Q :=
  match l with [] => Raise ValueError | x :: l => Ok (max_from x l) end.

(** ** Formatting *)

Fixpoint zeros (n : nat) : string :=
  match n with O => "" | S n => "0" +:+ zeros n end.

(** The decimal digits of [m], left-padded with zeros to [width]. *)
Definition pad_digits (width : nat) (m : N) : string :=
  let s := pretty m in
  zeros (width - String.length s) +:+ s.

(** [format(x, ".{prec}f")], and [format(x, "+.{prec}f")] when [plus]. *)
Definition format_f (plus : bool) (prec : nat) (x : Q) : string :=
  let m := Z.to_N (round_half_even (Qabs x * inject_Z (pow10 prec))) in
  let scale := Z.to_N (pow10 prec) in
  let sign := if lt x 0 then "-" else if plus then "+" else "" in
  let frac := match prec with
              | O => ""
              | S _ => "." +:+ pad_digits prec (m `mod` scale)%N
              end in
  sign +:+ pretty (m `div` scale)%N +:+ frac.

(** [", ".join(l)]. *)
Fixpoint join (sep : string) (l : list string) : string :=
  match l with
  | [] => ""
  | [s] => s
  | s :: l => s +:+ sep +:+ join sep l
  end.

(** ** Sorting

    [sorted(l, key=k)] is stable and compares keys with [<] only.  It is
    modelled by the stable insertion sort: every item is placed in front of
    the first item whose key is strictly greater.  With [reverse=True] the
    list is reversed before and after the sort, which keeps the sort stable
    for descending order. *)

Section sorting.
Context {A : Type} (key : A → Q).

Fixpoint insert_sorted (x : A) (l : list A) : list A :=
  match l with
  | [] => [x]
  | y :: l' => if lt (key x) (key y) then x :: l else y :: insert_sorted x l'
  end.

Definition sorted (l : list A) : list A :=
  foldl (λ acc x, insert_sorted x acc) [] l.

Definition sorted_reverse (l : list A) : list A :=
  reverse (sorted (reverse l)).

(** Ascending and descending order of keys. *)
Definition key_le (x y : A) : Prop := key x <= key y.
Definition key_ge (x y : A) : Prop := key y <= key x.
End sorting.

End Py.

(** ** The store of dict objects

    A dict object is a cell of the store, named by its position; a Python
    list of dicts is a list of such names.  Writing a key of a dict changes
    the cell, and every list that holds the dict sees the change. *)

Section store.
Context {A : Type} `{!Inhabited A}.

(** The dicts named by [refs], as the store has them now. *)
Definition deref (h : list A) (refs : list nat) : list A :=
  (λ r, h !!! r) <$> refs.

(** [for i, s in enumerate(refs, i): s["rank"] = i], with [set_rank i]
    for the write [s["rank"] = i]. *)
Fixpoint assign_ranks (set_rank : Z → A → A) (i : Z) (refs : list nat)
    (h : list A) : list A :=
  match refs with
  | [] => h
  | r :: refs => assign_ranks set_rank (i + 1) refs (alter (set_rank i) r h)
  end.
End store.

(** * build.py: the weekly-change variant *)

Module Weekly.

(** An entry of [socal_companies.json]. *)
Record company := {
  c_ticker : string;
  c_name : string;
  c_city : string;
}.

(** A quote dict as [fetch_quotes] builds it. *)
Record quote := {
  q_symbol : option string;
  q_price : Py.field;
  q_yearHigh : Py.field;
  q_yearLow : Py.field;
  q_marketCap : Py.field;
  q_pe : Py.field;
  q_volume : Py.field;
}.

(** An enriched dict. *)
Record stock := {
  rank : Z;
  name : string;
  ticker : string;
  city : string;
  price : Q;
  change_pct : Q;
  year_high : option Q;
  year_low : option Q;
  market_cap : option Q;
  pe : option Q;
  volume : option Q;
}.

Global Instance stock_inhabited : Inhabited stock :=
  populate {| rank := 0; name := ""; ticker := ""; city := ""; price := 0;
              change_pct := 0; year_high := None; year_low := None;
              market_cap := None; pe := None; volume := None |}.

(** [s["rank"] = i]. *)
Definition set_rank (i : Z) (s : stock) : stock :=
  {| rank := i; name := name s; ticker := ticker s; city := city s;
     price := price s; change_pct := change_pct s; year_high := year_high s;
     year_low := year_low s; market_cap := market_cap s; pe := pe s;
     volume := volume s |}.

(** [{c["ticker"]: c for c in companies}]: a later entry replaces an
    earlier one with the same ticker. *)
Definition company_map (companies : list company) : gmap string company :=
  foldl (λ m c, <[c_ticker c := c]> m) ∅ companies.

(** The state of the enrich loop of [build_rankings]. *)
Record loop_state := {
  ls_enriched : list nat;
  ls_current_prices : gmap string Q;
  ls_heap : list stock;
}.

(** [q.get("symbol", "")]. *)
Definition symbol_of (q : quote) : string := default "" (q_symbol q).

(** [q.get("price", 0) or 0]. *)
Definition current_price_of (q : quote) : Q := Py.or_zero (Py.get0 (q_price q)).

(** The week-over-week change of one quote, before rounding. *)
Definition week_change_of (previous_prices : gmap string Q) (ticker : string)
    (current_price : Q) (q : quote) : Q :=
  if match previous_prices !! ticker with
     | Some p => Py.gt p 0
     | None => false
     end
  then
    let last_price := default 0 (previous_prices !! ticker) in
    ((current_price - last_price) / last_price) * 100
  else
    let year_low := Py.get0 (q_yearLow q) in
    if Py.truthy_and_positive year_low then
      let year_low := default 0 year_low in
      ((current_price - year_low) / year_low) * 100 / 52
    else 0.

(** One iteration of [for q in quotes]. *)
Definition enrich_step (company_map : gmap string company)
    (previous_prices : gmap string Q) (st : loop_state) (q : quote) : loop_state :=
  let ticker := symbol_of q in
  match company_map !! ticker with
  | None => st
  | Some meta =>
    let current_price := current_price_of q in
    let week_change := week_change_of previous_prices ticker current_price q in
    let s := {| rank := 0;
                name := c_name meta;
                ticker := ticker;
                city := c_city meta;
                price := current_price;
                change_pct := Py.round week_change 2;
                year_high := Py.get0 (q_yearHigh q);
                year_low := Py.get0 (q_yearLow q);
                market_cap := Py.get0 (q_marketCap q);
                pe := Py.get (q_pe q);
                volume := Py.get0 (q_volume q) |} in
    {| ls_enriched := ls_enriched st ++ [length (ls_heap st)];
       ls_current_prices := <[ticker := current_price]> (ls_current_prices st);
       ls_heap := ls_heap st ++ [s] |}
  end.

Definition enrich_loop (company_map : gmap string company)
    (previous_prices : gmap string Q) (quotes : list quote) : loop_state :=
  foldl (enrich_step company_map previous_prices)
        {| ls_enriched := []; ls_current_prices := ∅; ls_heap := [] |} quotes.

(** [lambda x: x["change_pct"]] on a reference. *)
Definition change_key (h : list stock) (r : nat) : Q := change_pct (h !!! r).

(** What [build_rankings] returns, with the store its lists point into. *)
Record rankings := {
  gainers : list nat;
  losers : list nat;
  enriched : list nat;
  current_prices : gmap string Q;
  heap : list stock;
}.

Definition build_rankings (companies : list company) (quotes : list quote)
    (previous_prices : gmap string Q) : rankings :=
  let st := enrich_loop (company_map companies) previous_prices quotes in
  let h := ls_heap st in
  (* enriched.sort(key=..., reverse=True) *)
  let enriched := Py.sorted_reverse (change_key h) (ls_enriched st) in
  (* Top 25 gainers *)
  let gainers := take 25 enriched in
  let h := assign_ranks set_rank 1 gainers h in
  (* Bottom 25 losers (worst first) *)
  let losers := take 25 (Py.sorted (change_key h) enriched) in
  let h := assign_ranks set_rank 1 losers h in
  {| gainers := gainers; losers := losers; enriched := enriched;
     current_prices := ls_current_prices st; heap := h |}.

(** The lists of dicts a caller reads after the call. *)
Definition gainers_of (r : rankings) : list stock := deref (heap r) (gainers r).
Definition losers_of (r : rankings) : list stock := deref (heap r) (losers r).
Definition enriched_of (r : rankings) : list stock := deref (heap r) (enriched r).

(** [main]: [gainers[0] if gainers else None] and
    [losers[0] if losers else None]. *)
Definition spotlight_gainer (r : rankings) : option stock := head (gainers_of r).
Definition spotlight_loser (r : rankings) : option stock := head (losers_of r).

(** [main] prints [spotlight_gainer['name']] and [spotlight_loser['name']]
    without a test: subscripting [None] raises [TypeError].  The printed
    text is not modelled. *)
Definition print_spotlights (g l : option stock) : Py.result unit :=
  match g, l with
  | Some _, Some _ => Py.Ok ()
  | _, _ => Py.Raise Py.TypeError
  end.

(** [main] from the guard on the number of quotes to the prints: [None]
    when the build stops at the guard. *)
Definition main_spotlights (companies : list company) (quotes : list quote)
    (previous_prices : gmap string Q) : option (Py.result unit) :=
  if bool_decide (length quotes < 10)%nat then None
  else
    let r := build_rankings companies quotes previous_prices in
    Some (print_spotlights (spotlight_gainer r) (spotlight_loser r)).

(** What [fetch_quotes(tickers)] returns for [tickers] the tickers of
    [companies]: quotes whose symbols are among these tickers. *)
Definition quotes_of_companies (companies : list company) (quotes : list quote)
    : Prop :=
  Forall (λ q, ∃ c, c ∈ companies ∧ q_symbol q = Some (c_ticker c)) quotes.

(** ** Views used in the statements below *)

(** The dict one iteration of the enrich loop allocates, if any. *)
Definition new_stock (company_map : gmap string company)
    (previous_prices : gmap string Q) (q : quote) : option stock :=
  match company_map !! symbol_of q with
  | None => None
  | Some meta =>
    Some {| rank := 0;
            name := c_name meta;
            ticker := symbol_of q;
            city := c_city meta;
            price := current_price_of q;
            change_pct :=
              Py.round (week_change_of previous_prices (symbol_of q)
                          (current_price_of q) q) 2;
            year_high := Py.get0 (q_yearHigh q);
            year_low := Py.get0 (q_yearLow q);
            market_cap := Py.get0 (q_marketCap q);
            pe := Py.get (q_pe q);
            volume := Py.get0 (q_volume q) |}
  end.

(** Order of two references by the [change_pct] a caller reads. *)
Definition pct_le (r : rankings) (a b : nat) : Prop :=
  change_pct (heap r !!! a) <= change_pct (heap r !!! b).
Definition pct_ge (r : rankings) (a b : nat) : Prop := pct_le r b a.

End Weekly.

(** * build_top25.py: the Top-25 variant *)

Module Top25.

(** Validation thresholds. *)
Definition MIN_MARKET_CAP : Q := 1000000000.
Definition MAX_MARKET_CAP : Q := 500000000000.
Definition MAX_WEEKLY_CHANGE : Q := 60.

(** An entry of [top25_companies.json]. *)
Record company := {
  c_ticker : string;
  c_name : string;
  c_city : string;
  c_county : string;
}.

(** A quote dict as [fetch_quotes] builds it. *)
Record quote := {
  q_symbol : string;
  q_price : Py.field;
  q_week_ago_price : Py.field;
  q_yearHigh : Py.field;
  q_yearLow : Py.field;
  q_marketCap : Py.field;
  q_pe : Py.field;
  q_volume : Py.field;
}.

(** An enriched dict. *)
Record stock := {
  rank : Z;
  name : string;
  ticker : string;
  city : string;
  county : string;
  price : Q;
  change_pct : Q;
  year_high : option Q;
  year_low : option Q;
  market_cap : option Q;
  pe : option Q;
  yahoo_url : string;
}.

Global Instance stock_inhabited : Inhabited stock :=
  populate {| rank := 0; name := ""; ticker := ""; city := ""; county := "";
              price := 0; change_pct := 0; year_high := None; year_low := None;
              market_cap := None; pe := None; yahoo_url := "" |}.

(** [s["rank"] = i]. *)
Definition set_rank (i : Z) (s : stock) : stock :=
  {| rank := i; name := name s; ticker := ticker s; city := city s;
     county := county s; price := price s; change_pct := change_pct s;
     year_high := year_high s; year_low := year_low s;
     market_cap := market_cap s; pe := pe s; yahoo_url := yahoo_url s |}.

(** [{q["symbol"]: q for q in quotes}]. *)
Definition quote_map (quotes : list quote) : gmap string quote :=
  foldl (λ m q, <[q_symbol q := q]> m) ∅ quotes.

(** [q.get("price", 0) or 0]. *)
Definition current_price_of (q : quote) : Q := Py.or_zero (Py.get0 (q_price q)).

(** The 7-day change of one quote, before rounding. *)
Definition week_change_of (current_price : Q) (q : quote) : Q :=
  let week_ago_price := Py.get (q_week_ago_price q) in
  if Py.truthy_and_positive week_ago_price then
    let week_ago_price := default 0 week_ago_price in
    ((current_price - week_ago_price) / week_ago_price) * 100
  else 0.

(** The state of the enrich loop of [build_enriched_data]. *)
Record loop_state := {
  ls_enriched : list nat;
  ls_heap : list stock;
}.

(** One iteration of [for company in companies]. *)
Definition enrich_step (quote_map : gmap string quote) (st : loop_state)
    (company : company) : loop_state :=
  let ticker := c_ticker company in
  match quote_map !! ticker with
  | None => st
  | Some q =>
    let current_price := current_price_of q in
    let week_change := week_change_of current_price q in
    let s := {| rank := 0;
                name := c_name company;
                ticker := ticker;
                city := c_city company;
                county := c_county company;
                price := current_price;
                change_pct := Py.round week_change 2;
                year_high := Py.get0 (q_yearHigh q);
                year_low := Py.get0 (q_yearLow q);
                market_cap := Py.get0 (q_marketCap q);
                pe := Py.get (q_pe q);
                yahoo_url := "https://finance.yahoo.com/quote/" +:+ ticker +:+ "/" |} in
    {| ls_enriched := ls_enriched st ++ [length (ls_heap st)];
       ls_heap := ls_heap st ++ [s] |}
  end.

Definition enrich_loop (quote_map : gmap string quote) (companies : list company)
    : loop_state :=
  foldl (enrich_step quote_map) {| ls_enriched := []; ls_heap := [] |} companies.

(** [lambda x: x["market_cap"] or 0] on a reference. *)
Definition cap_key (h : list stock) (r : nat) : Q := Py.or_zero (market_cap (h !!! r)).

(** The list [build_enriched_data] returns, with the store it points into. *)
Record enriched_data := {
  enriched : list nat;
  heap : list stock;
}.

Definition build_enriched_data (companies : list company) (quotes : list quote)
    : enriched_data :=
  let st := enrich_loop (quote_map quotes) companies in
  let h := ls_heap st in
  (* Sort by market cap (descending) *)
  let enriched := Py.sorted_reverse (cap_key h) (ls_enriched st) in
  (* Assign ranks *)
  let h := assign_ranks set_rank 1 enriched h in
  {| enriched := enriched; heap := h |}.

(** The list of dicts a caller reads after the call. *)
Definition enriched_of (d : enriched_data) : list stock := deref (heap d) (enriched d).

(** [find_spotlight_stocks]; it only reads the dicts. *)
Definition find_spotlight_stocks (enriched : list stock) : option stock * option stock :=
  let sorted_by_change := Py.sorted_reverse change_pct enriched in
  let gainer := head sorted_by_change in
  let loser := last sorted_by_change in
  (gainer, loser).

(** ** Validation *)

(** Check 1: All 25 tickers fetched. *)
Definition check_tickers (enriched : list stock) (failed_tickers : list string)
    (st : bool * list string) : bool * list string :=
  let '(passed, log) := st in
  let fetched := length enriched in
  if bool_decide (fetched = 25%nat) then
    (passed, log ++ ["Tickers fetched: " +:+ pretty fetched +:+ "/25 OK"])
  else
    let log := log ++ ["Tickers fetched: " +:+ pretty fetched +:+ "/25 FAILED"] in
    let log := match failed_tickers with
               | [] => log
               | _ :: _ => log ++ ["  Missing: " +:+ Py.join ", " failed_tickers]
               end in
    (false, log).

(** Check 2: All prices positive. *)
Definition check_prices (enriched : list stock) (st : bool * list string)
    : Py.result (bool * list string) :=
  let '(passed, log) := st in
  let prices := price <$> enriched in
  if forallb (λ p, Py.gt p 0) prices then
    Py.bind (Py.min prices) (λ lo,
    Py.bind (Py.max prices) (λ hi,
    Py.Ok (passed, log ++ ["Price range: $" +:+ Py.format_f false 2 lo +:+ " - $"
                            +:+ Py.format_f false 2 hi +:+ " OK"])))
  else
    Py.Ok (false, log ++ ["Price range: Some prices are zero or negative FAILED"]).

(** [[s["market_cap"] for s in enriched if s["market_cap"]]]. *)
Definition caps_of (enriched : list stock) : list Q :=
  omap (λ s, if Py.truthy_opt (market_cap s) then market_cap s else None) enriched.

(** Check 3: Market caps in expected range. *)
Definition check_caps (enriched : list stock) (st : bool * list string)
    : Py.result (bool * list string) :=
  let '(passed, log) := st in
  let caps := caps_of enriched in
  match caps with
  | [] => Py.Ok (passed, log)
  | _ :: _ =>
    Py.bind (Py.min caps) (λ min_cap,
    Py.bind (Py.max caps) (λ max_cap,
    let cap_ok := Py.ge min_cap MIN_MARKET_CAP && Py.le max_cap MAX_MARKET_CAP in
    let range := "Market cap range: $" +:+ Py.format_f false 1 (min_cap / 1000000000)
                 +:+ "B - $" +:+ Py.format_f false 1 (max_cap / 1000000000) +:+ "B" in
    if cap_ok then Py.Ok (passed, log ++ [range +:+ " OK"])
    else Py.Ok (passed, log ++ [range +:+ " WARNING (outside expected)"])))
  end.

(** The line logged for one extreme mover. *)
Definition extreme_mover_line (s : stock) : string :=
  "Extreme mover: " +:+ ticker s +:+ " (" +:+ Py.format_f true 1 (change_pct s)
  +:+ "%) - flagged for review".

(** Check 4: Flag extreme movers. *)
Definition check_movers (enriched : list stock) (st : bool * list string)
    : bool * list string :=
  let '(passed, log) := st in
  let extreme_movers :=
    filter (λ s, Py.gt (Py.abs (change_pct s)) MAX_WEEKLY_CHANGE = true) enriched in
  match extreme_movers with
  | [] => (passed, log ++ ["No extreme movers (within +/-60%)"])
  | _ :: _ => (passed, log ++ (extreme_mover_line <$> extreme_movers))
  end.

(** [validate_data]: returns [(passed, log)]. *)
Definition validate_data (enriched : list stock) (failed_tickers : list string)
    : Py.result (bool * list string) :=
  let st := (true, []) in
  let st := check_tickers enriched failed_tickers st in
  Py.bind (check_prices enriched st) (λ st,
  Py.bind (check_caps enriched st) (λ st,
  Py.Ok (check_movers enriched st))).

(** ** Views used in the statements below *)

(** The dict one iteration of the enrich loop allocates, if any. *)
Definition new_stock (quote_map : gmap string quote) (company : company)
    : option stock :=
  match quote_map !! c_ticker company with
  | None => None
  | Some q =>
    Some {| rank := 0;
            name := c_name company;
            ticker := c_ticker company;
            city := c_city company;
            county := c_county company;
            price := current_price_of q;
            change_pct := Py.round (week_change_of (current_price_of q) q) 2;
            year_high := Py.get0 (q_yearHigh q);
            year_low := Py.get0 (q_yearLow q);
            market_cap := Py.get0 (q_marketCap q);
            pe := Py.get (q_pe q);
            yahoo_url := "https://finance.yahoo.com/quote/"
                         +:+ c_ticker company +:+ "/" |}
  end.


(** The lines each check appends, read off a run on the empty log. *)
Definition tickers_lines (e : list stock) (failed : list string) : list string :=
  (check_tickers e failed (true, [])).2.
Definition prices_lines (e : list stock) : list string :=
  match check_prices e (true, []) with Py.Ok st => st.2 | Py.Raise _ => [] end.
Definition caps_lines (e : list stock) : list string :=
  match check_caps e (true, []) with Py.Ok st => st.2 | Py.Raise _ => [] end.
Definition movers_lines (e : list stock) : list string :=
  (check_movers e (true, [])).2.

(** The verdict of the two hard checks. *)
Definition all_fetched (e : list stock) : bool := bool_decide (length e = 25%nat).
Definition prices_positive (e : list stock) : bool :=
  forallb (λ p, Py.gt p 0) (price <$> e).

(** The range a check-3 line reports, and its verdict. *)
Definition cap_range (lo hi : Q) : string :=
  "Market cap range: $" +:+ Py.format_f false 1 (lo / 1000000000)
  +:+ "B - $" +:+ Py.format_f false 1 (hi / 1000000000) +:+ "B".
Definition cap_ok (lo hi : Q) : bool :=
  Py.ge lo MIN_MARKET_CAP && Py.le hi MAX_MARKET_CAP.

(** What [validate_data] does on a list [e]: it returns the verdict of
    checks 1 and 2 and a log made of the lines of the four checks, in order;
    checks 1, 2 and 4 log at least one line each; check 3 logs one line when
    an entry has a non-zero market cap and nothing otherwise. *)
Definition validate_log_complete (e : list stock) (failed : list string) : Prop :=
  validate_data e failed
  = Py.Ok (all_fetched e && prices_positive e,
           tickers_lines e failed ++ prices_lines e ++ caps_lines e
           ++ movers_lines e) ∧
  (∀ p log, check_tickers e failed (p, log)
            = (p && all_fetched e, log ++ tickers_lines e failed)) ∧
  (∀ p log, check_prices e (p, log)
            = Py.Ok (p && prices_positive e, log ++ prices_lines e)) ∧
  (∀ p log, check_caps e (p, log) = Py.Ok (p, log ++ caps_lines e)) ∧
  (∀ p log, check_movers e (p, log) = (p, log ++ movers_lines e)) ∧
  (1 ≤ length (tickers_lines e failed))%nat ∧
  length (prices_lines e) = 1%nat ∧
  (Exists (λ s, Py.truthy_opt (market_cap s) = true) e →
     length (caps_lines e) = 1%nat) ∧
  (Forall (λ s, Py.truthy_opt (market_cap s) = false) e → caps_lines e = []) ∧
  (1 ≤ length (movers_lines e))%nat.

End Top25.

(** * build.py: the price-history snapshot *)

Module PriceHistory.

(** The Python objects a price-history document is made of. *)
#[warnings="-register-all"] Inductive pyobj :=
| PyNone
| PyNum (x : Q)
| PyStr (s : string)
| PyDict (d : gmap string pyobj).

(** A ticker-to-price mapping as a Python dict, and back. *)
Definition prices_object (prices : gmap string Q) : pyobj :=
  PyDict (PyNum <$> prices).

Section files.
Context {text : Type}.

(** [json.dump(data, f, indent=2)] writes [json_dumps data];
  [json.load(f)] returns [json_loads] of the text of [f]. *)
Variable json_dumps : pyobj → text.
Variable json_loads : text → Py.result pyobj.

(** The file system, as far as this program goes: the text of
  [PRICE_HISTORY_FILE], if the file exists. *)
Record files := { price_history_file : option text }.

(** [load_price_history()]. *)
Definition load_price_history (fs : files) : Py.result pyobj :=
match price_history_file fs with
| Some t =>
  Py.bind (json_loads t) (λ data,
  match data with
  | PyDict d => Py.Ok (default (PyDict ∅) (d !! "prices"))
  | _ => Py.Raise Py.AttributeError
  end)
| None => Py.Ok (PyDict ∅)
end.


End files.

End PriceHistory.

Module WeeklyExamples.
Import Weekly.

Definition co (t : string) : company := {| c_ticker := t; c_name := t; c_city := "LA" |}.
Definition qu (t : string) (p yl : Q) : quote :=
  {| q_symbol := Some t; q_price := Py.Num p; q_yearHigh := Py.Missing;
     q_yearLow := Py.Num yl; q_marketCap := Py.Missing; q_pe := Py.Null;
     q_volume := Py.Missing |}.


(** Ten companies, each with a quote and a previous price of 100; the
    current prices are 109, 108, ..., 100. *)
Definition tickers10 : list string :=
  ["A"; "B"; "C"; "D"; "E"; "F"; "G"; "H"; "I"; "J"].
Definition companies10 : list company := co <$> tickers10.
Definition quotes10 : list quote :=
  zip_with (λ t p, qu t p 50) tickers10 [109; 108; 107; 106; 105; 104; 103; 102; 101; 100].
Definition previous10 : gmap string Q :=
  list_to_map ((λ t, (t, 100)) <$> tickers10).

(** Twenty-six companies, all at their previous price of 100 but the first,
    which is at 110. *)
Definition tickers26 : list string := (λ i : nat, "T" +:+ pretty i) <$> seq 0 26.
Definition companies26 : list company := co <$> tickers26.
Definition quotes26 : list quote :=
  zip_with (λ t p, qu t p 50) tickers26 (110 :: replicate 25 100).
Definition previous26 : gmap string Q :=
  list_to_map ((λ t, (t, 100)) <$> tickers26).

End WeeklyExamples.

Module Top25Examples.
Import Top25.
Definition mk (t : string) (p chg : Q) (cap : option Q) : stock :=
  {| rank := 0; name := t; ticker := t; city := "LA"; county := "LA"; price := p;
     change_pct := chg; year_high := Some 0; year_low := Some 0; market_cap := cap;
     pe := None; yahoo_url := "" |}.

(** Twenty-five entries at a price of 10 and a change of 1%: the first with
    a market cap of $600B, the others with $2B. *)
Definition top25_with_600B : list stock :=
  mk "T0" 10 1 (Some 600000000000)
  :: ((λ i : nat, mk ("T" +:+ pretty i) 10 1 (Some 2000000000)) <$> seq 1 24).
End Top25Examples.

(** * build.py: P/E extremes and anchor companies *)

Module Build.
Import Weekly.

(** [lambda x: x["pe"]].  It is read on dicts that passed the filter, whose
    [pe] is a number. *)
Definition pe_key (s : stock) : Q := default 0 (pe s).

(** [compute_pe_extremes]: the 3 highest and the 3 lowest P/E ratios. *)
Definition compute_pe_extremes (enriched : list stock) : list stock * list stock :=
  let with_pe := filter (λ s, Py.truthy_and_positive (pe s) = true) enriched in
  let with_pe := Py.sorted_reverse pe_key with_pe in
  let highest := take 3 with_pe in
  let lowest := drop (length with_pe - 3) with_pe in
  (highest, lowest).

(** [ANCHOR_COMPANIES], in the order of the dict. *)
Definition ANCHOR_COMPANIES : list (string * string) :=
  [("DIS", "Walt Disney Co"); ("AMGN", "Amgen"); ("QCOM", "Qualcomm");
   ("ILMN", "Illumina"); ("CMG", "Chipotle"); ("SRE", "Sempra");
   ("DXCM", "Dexcom"); ("PSA", "Public Storage"); ("O", "Realty Income");
   ("EW", "Edwards Lifesciences"); ("TTD", "The Trade Desk");
   ("DECK", "Deckers"); ("RKLB", "Rocket Lab"); ("RMD", "ResMed");
   ("NBIX", "Neurocrine")].

(** [q["symbol"] for q in quotes]: [KeyError] at a quote without the key. *)
Fixpoint symbols (quotes : list quote) : Py.result (list string) :=
  match quotes with
  | [] => Py.Ok []
  | q :: quotes =>
    match q_symbol q with
    | None => Py.Raise Py.KeyError
    | Some t => Py.bind (symbols quotes) (λ l, Py.Ok (t :: l))
    end
  end.

(** [validate_anchor_companies]: the missing anchor tickers.  The warnings
    it prints are not modelled. *)
Definition validate_anchor_companies (quotes : list quote)
    : Py.result (list string) :=
  Py.bind (symbols quotes) (λ syms,
  let fetched_tickers : gset string := list_to_set syms in
  let missing := filter (λ tn, tn.1 ∉ fetched_tickers) ANCHOR_COMPANIES in
  Py.Ok (missing.*1)).

End Build.

(** * build_top25.py: P/E extremes *)

Module BuildTop25.
Import Top25.

(** [lambda x: x["pe"]], read on dicts that passed the filter. *)
Definition pe_key (s : stock) : Q := default 0 (pe s).

(** [compute_pe_extremes]: the highest and the lowest P/E ratio. *)
Definition compute_pe_extremes (enriched : list stock)
    : option stock * option stock :=
  let with_pe := filter (λ s, Py.truthy_and_positive (pe s) = true) enriched in
  let with_pe := Py.sorted_reverse pe_key with_pe in
  let highest := head with_pe in
  let lowest := last with_pe in
  (highest, lowest).

End BuildTop25.

(** * Division, and the 52-week change *)

Module Arith.

(** [x / y] on numbers: [None] stands for [ZeroDivisionError]. *)
Definition truediv (x y : Q) : option Q :=
  if Qeq_bool y 0 then None else Some (x / y).

(** The week-over-week change of [build_rankings] (build.py, lines 225-235)
    with its divisions checked. *)
Definition weekly_week_change (previous_prices : gmap string Q) (ticker : string)
    (current_price : Q) (q : Weekly.quote) : option Q :=
  if match previous_prices !! ticker with
     | Some p => Py.gt p 0
     | None => false
     end
  then
    let last_price := default 0 (previous_prices !! ticker) in
    d ← truediv (current_price - last_price) last_price;
    Some (d * 100)
  else
    let year_low := Py.get0 (Weekly.q_yearLow q) in
    if Py.truthy_and_positive year_low then
      let year_low := default 0 year_low in
      d ← truediv (current_price - year_low) year_low;
      truediv (d * 100) 52
    else Some 0.

(** The 7-day change of [build_enriched_data] (build_top25.py, lines
    144-147) with its division checked. *)
Definition top25_week_change (current_price : Q) (q : Top25.quote) : option Q :=
  let week_ago_price := Py.get (Top25.q_week_ago_price q) in
  if Py.truthy_and_positive week_ago_price then
    let week_ago_price := default 0 week_ago_price in
    d ← truediv (current_price - week_ago_price) week_ago_price;
    Some (d * 100)
  else Some 0.

(** [compute_52_week_change] (build.py), with its division checked. *)
Definition compute_52_week_change (stock : Weekly.stock) : option Q :=
  if Py.truthy_and_positive (Weekly.year_low stock) then
    let year_low := default 0 (Weekly.year_low stock) in
    d ← truediv (Weekly.price stock - year_low) year_low;
    Some (Py.round (d * 100) 1)
  else Some 0.

End Arith.

(** * Fetching quotes, and the two [main]s

    The market-data provider is outside the program.  Of the [try] block of
    [fetch_quotes] the model keeps what the block leaves for the test that
    follows it: for each ticker, either an exception, or a current price
    (and, for the Top-25 variant, a week-ago price) and the [info] dict. *)

Module Provider.

Record fetched := {
  f_current_price : option Q;
  f_week_ago_price : option Q;
  f_fiftyTwoWeekHigh : Py.field;
  f_fiftyTwoWeekLow : Py.field;
  f_marketCap : Py.field;
  f_trailingPE : Py.field;
  f_volume : Py.field;
}.

(** A value as the key of a quote dict holds it. *)
Definition stored (v : option Q) : Py.field :=
  match v with Some x => Py.Num x | None => Py.Null end.

(** [if current_price and current_price > 0]. *)
Definition usable (f : fetched) : bool :=
  Py.truthy_and_positive (f_current_price f).

(** The three ways a ticker can go: the provider answers with a usable
    price, the [try] block raises, or the provider answers with a price
    that is [None], zero or negative. *)
Definition quoted (provider : string → option fetched) (t : string) : bool :=
  match provider t with Some f => usable f | None => false end.
Definition raised (provider : string → option fetched) (t : string) : bool :=
  match provider t with Some _ => false | None => true end.
Definition dropped (provider : string → option fetched) (t : string) : bool :=
  match provider t with Some f => negb (usable f) | None => false end.

End Provider.

(** ** build_top25.py *)

Module Top25Pipeline.
Import Top25 Provider.

Section pipeline.
(** What the provider gives for a ticker; [None] when the [try] block
    raises. *)
Variable provider : string → option fetched.

(** The quote dict appended for a ticker. *)
Definition quote_of (ticker : string) (f : fetched) : quote :=
  {| q_symbol := ticker;
     q_price := stored (f_current_price f);
     q_week_ago_price := stored (f_week_ago_price f);
     q_yearHigh := stored (Py.get0 (f_fiftyTwoWeekHigh f));
     q_yearLow := stored (Py.get0 (f_fiftyTwoWeekLow f));
     q_marketCap := stored (Py.get0 (f_marketCap f));
     q_pe := stored (Py.get (f_trailingPE f));
     q_volume := stored (Py.get0 (f_volume f)) |}.

(** One iteration of [for ticker in tickers]. *)
Definition fetch_step (st : list quote * list string) (ticker : string)
    : list quote * list string :=
  let '(all_quotes, failed) := st in
  match provider ticker with
  | Some f =>
    if usable f then (all_quotes ++ [quote_of ticker f], failed)
    else (all_quotes, failed)
  | None => (all_quotes, failed ++ [ticker])
  end.

(** [fetch_quotes]: returns [(all_quotes, failed)]. *)
Definition fetch_quotes (tickers : list string) : list quote * list string :=
  foldl fetch_step ([], []) tickers.

(** How a run of [main] ends. *)
Inductive outcome :=
| TooFewQuotes
| ValidationFailed (validation_log : list string)
| Published (enriched : list stock) (gainer loser pe_high pe_low : option stock)
    (validation_log : list string).

(** The summary prints subscript [gainer] and [loser] without a test. *)
Definition print_summary (gainer loser : option stock) : Py.result unit :=
  match gainer, loser with
  | Some _, Some _ => Py.Ok ()
  | _, _ => Py.Raise Py.TypeError
  end.

(** [main], from the company list to what [render_site] is given.  The
    sparklines and the rendering are the provider's and the template
    engine's. *)
Definition main (companies : list company) : Py.result outcome :=
  let tickers := c_ticker <$> companies in
  let '(quotes, failed_tickers) := fetch_quotes tickers in
  if bool_decide (length quotes < 20)%nat then Py.Ok TooFewQuotes
  else
    let enriched := enriched_of (build_enriched_data companies quotes) in
    let '(gainer, loser) := find_spotlight_stocks enriched in
    let '(pe_high, pe_low) := BuildTop25.compute_pe_extremes enriched in
    Py.bind (validate_data enriched failed_tickers) (λ '(passed, validation_log),
    if negb passed then Py.Ok (ValidationFailed validation_log)
    else
      Py.bind (print_summary gainer loser) (λ _,
      Py.Ok (Published enriched gainer loser pe_high pe_low validation_log))).

End pipeline.
End Top25Pipeline.

(** ** build.py *)

Module WeeklyPipeline.
Import Weekly Provider.

Section pipeline.
Variable provider : string → option fetched.

(** The quote dict appended for a ticker. *)
Definition quote_of (ticker : string) (f : fetched) : quote :=
  {| q_symbol := Some ticker;
     q_price := stored (f_current_price f);
     q_yearHigh := stored (Py.get0 (f_fiftyTwoWeekHigh f));
     q_yearLow := stored (Py.get0 (f_fiftyTwoWeekLow f));
     q_marketCap := stored (Py.get0 (f_marketCap f));
     q_pe := stored (Py.get (f_trailingPE f));
     q_volume := stored (Py.get0 (f_volume f)) |}.

(** One iteration of [for ticker in tickers]. *)
Definition fetch_step (st : list quote * list string) (ticker : string)
    : list quote * list string :=
  let '(all_quotes, failed) := st in
  match provider ticker with
  | Some f =>
    if usable f then (all_quotes ++ [quote_of ticker f], failed)
    else (all_quotes, failed)
  | None => (all_quotes, failed ++ [ticker])
  end.

(** [fetch_quotes]: returns [all_quotes]; [failed] is only printed. *)
Definition fetch_quotes (tickers : list string) : list quote :=
  (foldl fetch_step ([], []) tickers).1.

(** What a run of [main] that passes the guard hands to
    [save_price_history] and [render_site]. *)
Record build := {
  b_rankings : rankings;
  b_pe_highest : list stock;
  b_pe_lowest : list stock;
  b_missing_anchors : list string;
  b_saved_prices : gmap string Q;
}.

(** [main], given the previous prices it loaded: [None] when the run stops
    at the guard on the number of quotes. *)
Definition main (companies : list company) (previous_prices : gmap string Q)
    : Py.result (option build) :=
  let tickers := c_ticker <$> companies in
  let quotes := fetch_quotes tickers in
  Py.bind (Build.validate_anchor_companies quotes) (λ missing_anchors,
  if bool_decide (length quotes < 10)%nat then Py.Ok None
  else
    let r := build_rankings companies quotes previous_prices in
    let '(pe_highest, pe_lowest) := Build.compute_pe_extremes (enriched_of r) in
    Py.bind (print_spotlights (spotlight_gainer r) (spotlight_loser r)) (λ _,
    Py.Ok (Some {| b_rankings := r; b_pe_highest := pe_highest;
                   b_pe_lowest := pe_lowest;
                   b_missing_anchors := missing_anchors;
                   b_saved_prices := current_prices r |}))).

End pipeline.
End WeeklyPipeline.

(** * Facts about the Python prelude *)

Section order_facts.
Lemma lt_true x y : Py.lt x y = true ↔ x < y.
Proof.
  unfold Py.lt. rewrite negb_true_iff, <- not_true_iff_false, Qle_bool_iff.
  split; [apply Qnot_le_lt | apply Qlt_not_le].
Qed.

Lemma lt_false x y : Py.lt x y = false ↔ y <= x.
Proof. unfold Py.lt. rewrite negb_false_iff. apply Qle_bool_iff. Qed.

Lemma gt_true x y : Py.gt x y = true ↔ y < x.
Proof. apply lt_true. Qed.

Lemma gt_false x y : Py.gt x y = false ↔ x <= y.
Proof. apply lt_false. Qed.

Lemma ge_true x y : Py.ge x y = true ↔ y <= x.
Proof. apply Qle_bool_iff. Qed.

Lemma le_true x y : Py.le x y = true ↔ x <= y.
Proof. apply Qle_bool_iff. Qed.

Lemma truthy_false x : Py.truthy x = false ↔ x == 0.
Proof. unfold Py.truthy. rewrite negb_false_iff. apply Qeq_bool_iff. Qed.

Lemma positive_truthy x : 0 < x → Py.truthy x = true.
Proof.
  intros Hx. destruct (Py.truthy x) eqn:E; [done|].
  apply truthy_false in E. rewrite E in Hx. by apply Qlt_irrefl in Hx.
Qed.

(** [v and v > 0] holds exactly for a number above zero. *)
Lemma truthy_and_positive_true v :
  Py.truthy_and_positive v = true ↔ ∃ x, v = Some x ∧ 0 < x.
Proof.
  destruct v as [x|]; simpl.
  - rewrite andb_true_iff, gt_true. split.
    + intros [_ Hx]. eauto.
    + intros (y & [= <-] & Hy). auto using positive_truthy.
  - split; [done | by intros (? & ? & _)].
Qed.
End order_facts.

Section sorting_facts.
Context {A : Type} (key : A → Q).

Lemma insert_sorted_perm x l : Py.insert_sorted key x l ≡ₚ x :: l.
Proof.
  induction l as [|y l IH]; simpl; [done|].
  destruct (Py.lt (key x) (key y)); [done|].
  rewrite IH. apply Permutation_swap.
Qed.

Lemma foldl_insert_perm acc l :
  foldl (λ acc x, Py.insert_sorted key x acc) acc l ≡ₚ l ++ acc.
Proof.
  revert acc. induction l as [|x l IH]; intros acc; simpl; [done|].
  rewrite IH, insert_sorted_perm. by rewrite Permutation_middle.
Qed.

Lemma sorted_perm l : Py.sorted key l ≡ₚ l.
Proof. unfold Py.sorted. by rewrite foldl_insert_perm, app_nil_r. Qed.

Lemma sorted_reverse_perm l : Py.sorted_reverse key l ≡ₚ l.
Proof.
  unfold Py.sorted_reverse.
  by rewrite reverse_Permutation, sorted_perm, reverse_Permutation.
Qed.

Lemma insert_sorted_sorted x l :
  StronglySorted (Py.key_le key) l → StronglySorted (Py.key_le key) (Py.insert_sorted key x l).
Proof.
  induction 1 as [|y l Hl IH Hy]; simpl.
  - repeat constructor.
  - destruct (Py.lt (key x) (key y)) eqn:E.
    + apply lt_true in E. constructor; [by constructor|].
      constructor; [unfold Py.key_le; lra|].
      eapply Forall_impl; [exact Hy|]. unfold Py.key_le. intros z Hz. lra.
    + apply lt_false in E. constructor; [done|].
      rewrite insert_sorted_perm. by constructor.
Qed.

Lemma foldl_insert_sorted acc l :
  StronglySorted (Py.key_le key) acc →
  StronglySorted (Py.key_le key) (foldl (λ acc x, Py.insert_sorted key x acc) acc l).
Proof.
  revert acc. induction l as [|x l IH]; intros acc Hacc; simpl; [done|].
  by apply IH, insert_sorted_sorted.
Qed.

Lemma sorted_sorted l : StronglySorted (Py.key_le key) (Py.sorted key l).
Proof. apply foldl_insert_sorted. constructor. Qed.

Lemma StronglySorted_reverse (R : relation A) l :
  StronglySorted R l → StronglySorted (flip R) (reverse l).
Proof.
  induction 1 as [|x l Hl IH Hx]; [constructor|].
  rewrite reverse_cons. apply StronglySorted_app; split_and!.
  - intros a b Ha Hb. apply list_elem_of_singleton in Hb as ->.
    rewrite elem_of_reverse in Ha. rewrite Forall_forall in Hx.
    unfold flip. by apply Hx.
  - done.
  - repeat constructor.
Qed.

Lemma sorted_reverse_sorted l : StronglySorted (Py.key_ge key) (Py.sorted_reverse key l).
Proof. apply (StronglySorted_reverse (Py.key_le key)), sorted_sorted. Qed.

Lemma StronglySorted_take (R : relation A) n l :
  StronglySorted R l → StronglySorted R (take n l).
Proof.
  intros Hl. rewrite <- (take_drop n l) in Hl.
  by apply StronglySorted_app_1_l in Hl.
Qed.

Lemma StronglySorted_impl (R1 R2 : relation A) l :
  (∀ x y, R1 x y → R2 x y) → StronglySorted R1 l → StronglySorted R2 l.
Proof.
  intros HR. induction 1 as [|x l Hl IH Hx]; constructor; [done|].
  eapply Forall_impl; [exact Hx|]. auto.
Qed.

(** In a sorted list the first item is below and the last item above
    every item. *)
Lemma StronglySorted_head (R : relation A) `{!Reflexive R} l x y :
  StronglySorted R l → head l = Some x → y ∈ l → R x y.
Proof.
  intros Hl Hx Hy. destruct l as [|x' l]; [done|]. injection Hx as ->.
  apply StronglySorted_cons in Hl as [Hall _].
  apply elem_of_cons in Hy as [->|Hy]; [done|].
  rewrite Forall_forall in Hall. by apply Hall.
Qed.

Lemma StronglySorted_last (R : relation A) `{!Reflexive R} l x y :
  StronglySorted R l → last l = Some x → y ∈ l → R y x.
Proof.
  intros Hl Hx Hy. apply StronglySorted_reverse in Hl.
  rewrite <- head_reverse in Hx. rewrite <- elem_of_reverse in Hy.
  by apply (StronglySorted_head (flip R) (reverse l) x y).
Qed.

Global Instance key_le_refl : Reflexive (Py.key_le key).
Proof. intros x. unfold Py.key_le. lra. Qed.
Global Instance key_ge_refl : Reflexive (Py.key_ge key).
Proof. intros x. unfold Py.key_ge. lra. Qed.
End sorting_facts.

(** The prelude on small inputs. *)
Example round_half_even_ties :
  Py.round 0.125 2 == 0.12 ∧ Py.round 0.135 2 == 0.14 ∧
  Py.round (- 0.125) 2 == - 0.12 ∧ Py.round (120 / 52) 2 == 2.31.
Proof. by vm_compute. Qed.

Example format_f_examples :
  Py.format_f false 2 (1234567 # 1000) = "1234.57" ∧
  Py.format_f true 1 (- (61 # 1)) = "-61.0" ∧
  Py.format_f true 1 (705 # 10) = "+70.5" ∧
  Py.format_f false 1 (600000000000 / 1000000000) = "600.0".
Proof. vm_compute. done. Qed.

(** The sort is stable in both directions: items with equal keys keep the
    order of the input. *)
Example sorted_is_stable :
  Py.sorted (λ p : string * Q, p.2) [("a", 2); ("b", 1); ("c", 2); ("d", 1)]
  = [("b", 1); ("d", 1); ("a", 2); ("c", 2)] ∧
  Py.sorted_reverse (λ p : string * Q, p.2) [("a", 2); ("b", 1); ("c", 2); ("d", 1)]
  = [("a", 2); ("c", 2); ("b", 1); ("d", 1)].
Proof. vm_compute. done. Qed.

(** * Facts about the store *)

Section store_facts.
Context {A : Type} `{!Inhabited A} (set_rank : Z → A → A) (rank : A → Z).
Hypothesis Hrank : ∀ i s, rank (set_rank i s) = i.

Lemma length_assign_ranks i refs h :
  length (assign_ranks set_rank i refs h) = length h.
Proof.
  revert i h. induction refs as [|r refs IH]; intros i h; simpl; [done|].
  by rewrite IH, length_alter.
Qed.

(** A dict that is not in the list keeps its rank. *)
Lemma assign_ranks_notin i refs h r :
  r ∉ refs → assign_ranks set_rank i refs h !! r = h !! r.
Proof.
  revert i h. induction refs as [|r' refs IH]; intros i h Hr; simpl; [done|].
  apply not_elem_of_cons in Hr as [Hne Hr].
  rewrite IH by done. by apply list_lookup_alter_ne.
Qed.

(** Writing ranks changes no key that [set_rank] leaves alone. *)
Lemma assign_ranks_preserves {B} (f : A → B) i refs h r :
  (∀ j s, f (set_rank j s) = f s) →
  f <$> assign_ranks set_rank i refs h !! r = f <$> h !! r.
Proof.
  intros Hf. revert i h.
  induction refs as [|r' refs IH]; intros i h; simpl; [done|].
  rewrite IH. destruct (decide (r' = r)) as [->|Hne].
  - rewrite list_lookup_alter_eq. destruct (h !! r); simpl; [|done].
    by rewrite Hf.
  - by rewrite list_lookup_alter_ne.
Qed.

Lemma assign_ranks_preserves_total {B} (f : A → B) i refs h r :
  (∀ j s, f (set_rank j s) = f s) →
  f (assign_ranks set_rank i refs h !!! r) = f (h !!! r).
Proof.
  intros Hf. pose proof (assign_ranks_preserves f i refs h r Hf) as H.
  rewrite !list_lookup_total_alt.
  destruct (assign_ranks set_rank i refs h !! r), (h !! r);
    simpl in *; congruence.
Qed.

(** Each dict of a duplicate-free list ends with the rank of its
    position. *)
Lemma assign_ranks_rank i refs h k r :
  NoDup refs → (∀ r, r ∈ refs → (r < length h)%nat) → refs !! k = Some r →
  rank <$> assign_ranks set_rank i refs h !! r = Some (i + Z.of_nat k)%Z.
Proof.
  intros Hnd. revert i h k.
  induction Hnd as [|r' refs Hnotin Hnd IH]; intros i h k Hlt Hk; [done|].
  simpl. destruct k as [|k]; simpl in Hk.
  - injection Hk as ->. rewrite assign_ranks_notin by done.
    rewrite list_lookup_alter_eq.
    destruct (lookup_lt_is_Some_2 h r) as [s ->]; [apply Hlt; left|].
    simpl. rewrite Hrank. f_equal. lia.
  - rewrite (IH _ _ k); [f_equal; lia | | done].
    intros r0 Hr0. rewrite length_alter. apply Hlt. by right.
Qed.

(** Read back through the same list, the ranks count up from [i]. *)
Lemma rank_deref_assign_ranks i refs h :
  NoDup refs → (∀ r, r ∈ refs → (r < length h)%nat) →
  rank <$> deref (assign_ranks set_rank i refs h) refs
  = seqZ i (Z.of_nat (length refs)).
Proof.
  intros Hnd Hlt. apply list_eq. intros k.
  unfold deref. rewrite <- list_fmap_compose, list_lookup_fmap.
  destruct (refs !! k) as [r|] eqn:Hk; simpl.
  - pose proof (assign_ranks_rank i refs h k r Hnd Hlt Hk) as Hr.
    rewrite list_lookup_total_alt.
    destruct (assign_ranks set_rank i refs h !! r) as [s|]; [|done].
    simpl in *. injection Hr as ->.
    symmetry. apply lookup_seqZ. split; [done|].
    apply lookup_lt_Some in Hk. lia.
  - symmetry. apply lookup_seqZ_ge. apply lookup_ge_None in Hk. lia.
Qed.
End store_facts.

(** * The weekly-change variant *)

Module WeeklyFacts.
Import Weekly.

Lemma rank_set_rank i s : rank (set_rank i s) = i.
Proof. done. Qed.

Lemma set_rank_set_rank i j s : set_rank i (set_rank j s) = set_rank i s.
Proof. done. Qed.

Section loop.
Context (cmap : gmap string company) (prev : gmap string Q).

Lemma enrich_loop_heap st0 quotes :
  ls_heap (foldl (enrich_step cmap prev) st0 quotes)
  = ls_heap st0 ++ omap (new_stock cmap prev) quotes.
Proof.
  revert st0. induction quotes as [|q quotes IH]; intros st0; simpl.
  - by rewrite app_nil_r.
  - rewrite IH. unfold enrich_step, new_stock.
    destruct (cmap !! symbol_of q); simpl; [|done].
    by rewrite <- app_assoc.
Qed.

Lemma enrich_loop_refs st0 quotes :
  ls_enriched (foldl (enrich_step cmap prev) st0 quotes)
  = ls_enriched st0
    ++ seq (length (ls_heap st0)) (length (omap (new_stock cmap prev) quotes)).
Proof.
  revert st0. induction quotes as [|q quotes IH]; intros st0; simpl.
  - by rewrite app_nil_r.
  - rewrite IH. unfold enrich_step, new_stock.
    destruct (cmap !! symbol_of q); simpl; [|done].
    rewrite <- app_assoc, length_app. simpl.
    by rewrite Nat.add_1_r.
Qed.
End loop.

(** The store and the lists of [build_rankings], step by step. *)
Lemma build_rankings_unfold companies quotes prev :
  let h0 := omap (new_stock (company_map companies) prev) quotes in
  let r := build_rankings companies quotes prev in
  enriched r = Py.sorted_reverse (change_key h0) (seq 0 (length h0)) ∧
  gainers r = take 25 (enriched r) ∧
  losers r = take 25 (Py.sorted
               (change_key (assign_ranks set_rank 1 (gainers r) h0)) (enriched r)) ∧
  heap r = assign_ranks set_rank 1 (losers r)
             (assign_ranks set_rank 1 (gainers r) h0).
Proof.
  unfold build_rankings, enrich_loop. simpl.
  by rewrite enrich_loop_heap, enrich_loop_refs.
Qed.

Section result.
Context (companies : list company) (quotes : list quote)
        (prev : gmap string Q).
Local Abbreviation h0 := (omap (new_stock (company_map companies) prev) quotes).
Local Abbreviation res := (build_rankings companies quotes prev).

Lemma enriched_perm : enriched res ≡ₚ seq 0 (length h0).
Proof.
  destruct (build_rankings_unfold companies quotes prev) as (-> & _).
  apply sorted_reverse_perm.
Qed.

Lemma length_heap : length (heap res) = length h0.
Proof.
  destruct (build_rankings_unfold companies quotes prev) as (_ & _ & _ & ->).
  by rewrite !length_assign_ranks.
Qed.

Lemma enriched_NoDup : NoDup (enriched res).
Proof. rewrite enriched_perm. apply NoDup_seq. Qed.

Lemma enriched_lt k : k ∈ enriched res → (k < length h0)%nat.
Proof. rewrite enriched_perm, elem_of_seq. lia. Qed.

Lemma losers_perm :
  ∃ l, l ≡ₚ enriched res ∧ losers res = take 25 l.
Proof.
  destruct (build_rankings_unfold companies quotes prev) as (_ & _ & -> & _).
  eexists; split; [|done]. apply sorted_perm.
Qed.

Lemma losers_NoDup : NoDup (losers res).
Proof.
  destruct losers_perm as (l & Hl & ->).
  eapply sublist_NoDup; [|apply sublist_take].
  rewrite Hl. apply enriched_NoDup.
Qed.

Lemma losers_subseteq : losers res ⊆ enriched res.
Proof.
  destruct losers_perm as (l & Hl & ->). rewrite <- Hl.
  apply sublist_subseteq, sublist_take.
Qed.


(** Ranks aside, the store holds the dicts the loop built. *)
Lemma heap_preserves {B} (f : stock → B) k :
  (∀ j s, f (set_rank j s) = f s) → f (heap res !!! k) = f (h0 !!! k).
Proof.
  intros Hf.
  destruct (build_rankings_unfold companies quotes prev) as (_ & _ & _ & ->).
  by rewrite !assign_ranks_preserves_total.
Qed.

Lemma heap_lookup k s :
  heap res !! k = Some s → ∃ s0, h0 !! k = Some s0 ∧ set_rank 0 s = set_rank 0 s0.
Proof.
  intros Hk. pose proof (lookup_lt_Some _ _ _ Hk) as Hlt.
  rewrite length_heap in Hlt.
  destruct (lookup_lt_is_Some_2 h0 k Hlt) as [s0 Hs0]. exists s0. split; [done|].
  pose proof (heap_preserves (set_rank 0) k (set_rank_set_rank 0)) as H.
  by rewrite (list_lookup_total_correct _ _ _ Hk),
    (list_lookup_total_correct _ _ _ Hs0) in H.
Qed.

(** Every dict of the returned [enriched] list was built from a quote of a
    known company. *)
Lemma enriched_of_origin s :
  s ∈ enriched_of res →
  ∃ q s0, q ∈ quotes ∧ new_stock (company_map companies) prev q = Some s0
          ∧ set_rank 0 s = set_rank 0 s0.
Proof.
  unfold enriched_of, deref. intros (k & -> & Hk)%list_elem_of_fmap.
  apply enriched_lt in Hk. rewrite <- length_heap in Hk.
  destruct (lookup_lt_is_Some_2 _ _ Hk) as [s Hs].
  rewrite (list_lookup_total_correct _ _ _ Hs).
  destruct (heap_lookup k s Hs) as (s0 & Hs0 & Heq).
  apply list_elem_of_lookup_2, list_elem_of_omap in Hs0 as (q & Hq & Hnew).
  by exists q, s0.
Qed.

(** Every quote of a known company has its dict in [enriched]. *)
Lemma enriched_of_quote q s0 :
  q ∈ quotes → new_stock (company_map companies) prev q = Some s0 →
  ∃ s, s ∈ enriched_of res ∧ set_rank 0 s = set_rank 0 s0.
Proof.
  intros Hq Hnew.
  assert (s0 ∈ h0) as (k & Hk)%list_elem_of_lookup_1.
  { apply list_elem_of_omap. eauto. }
  exists (heap res !!! k). split.
  - unfold enriched_of, deref. apply list_elem_of_fmap.
    exists k. split; [done|].
    rewrite enriched_perm, elem_of_seq.
    apply lookup_lt_Some in Hk. lia.
  - rewrite (heap_preserves (set_rank 0) k (set_rank_set_rank 0)).
    by rewrite (list_lookup_total_correct _ _ _ Hk).
Qed.


Global Instance pct_le_refl : Reflexive (pct_le res).
Proof. intros a. unfold pct_le. lra. Qed.
Global Instance pct_ge_refl : Reflexive (pct_ge res).
Proof. intros a. unfold pct_ge, pct_le. lra. Qed.

Lemma enriched_sorted : StronglySorted (pct_ge res) (enriched res).
Proof.
  destruct (build_rankings_unfold companies quotes prev) as (-> & _).
  eapply StronglySorted_impl; [|apply sorted_reverse_sorted].
  intros a b. unfold Py.key_ge, change_key, pct_ge, pct_le.
  by rewrite !(heap_preserves change_pct).
Qed.

Lemma losers_sorted :
  ∃ l, l ≡ₚ enriched res ∧ losers res = take 25 l ∧ StronglySorted (pct_le res) l.
Proof.
  destruct (build_rankings_unfold companies quotes prev) as (_ & _ & Hl & _).
  eexists; split_and!; [apply sorted_perm | exact Hl |].
  eapply StronglySorted_impl; [|apply sorted_sorted].
  intros a b. unfold Py.key_le, change_key, pct_le.
  rewrite !(heap_preserves change_pct) by done.
  by rewrite !(assign_ranks_preserves_total set_rank change_pct).
Qed.

(** [gainers[0]] and [losers[0]], when there are any, are dicts of
    [enriched] with the greatest and the least [change_pct]. *)
Lemma gainers_head :
  match head (gainers_of res) with
  | Some g => g ∈ enriched_of res ∧
              ∀ s, s ∈ enriched_of res → change_pct s <= change_pct g
  | None => enriched_of res = []
  end.
Proof.
  pose proof (build_rankings_unfold companies quotes prev) as Hg.
  cbv zeta in Hg. destruct Hg as (_ & Hg & _).
  pose proof enriched_sorted as Hsorted.
  unfold gainers_of, enriched_of, deref. rewrite Hg.
  destruct (enriched res) as [|k0 l]; [done|].
  change (take 25 (k0 :: l)) with (k0 :: take 24 l).
  rewrite !fmap_cons. cbn [head]. split.
  - by left.
  - intros s [->|(k & -> & Hk)%list_elem_of_fmap]%elem_of_cons.
    + by apply (StronglySorted_head (pct_ge res) (k0 :: l) k0 k0); [|  |left].
    + by apply (StronglySorted_head (pct_ge res) (k0 :: l) k0 k); [| |right].
Qed.

Lemma losers_head :
  match head (losers_of res) with
  | Some l0 => l0 ∈ enriched_of res ∧
               ∀ s, s ∈ enriched_of res → change_pct l0 <= change_pct s
  | None => enriched_of res = []
  end.
Proof.
  destruct losers_sorted as (l & Hperm & Hl & Hsorted).
  unfold losers_of, enriched_of, deref. rewrite Hl.
  destruct l as [|k0 l].
  - apply Permutation_nil_l in Hperm. by rewrite <- Hperm.
  - change (take 25 (k0 :: l)) with (k0 :: take 24 l).
    rewrite fmap_cons. cbn [head]. split.
    + apply list_elem_of_fmap. exists k0. split; [done|].
      rewrite <- Hperm. by left.
    + intros s (k & -> & Hk)%list_elem_of_fmap. rewrite <- Hperm in Hk.
      by apply (StronglySorted_head (pct_le res) (k0 :: l) k0 k).
Qed.

(** The loser ranks are written last, and every loser is written once. *)
Lemma losers_ranks :
  rank <$> losers_of res = seqZ 1 (Z.of_nat (length (losers res))).
Proof.
  unfold losers_of.
  destruct (build_rankings_unfold companies quotes prev) as (_ & _ & _ & ->).
  apply rank_deref_assign_ranks; [done | apply losers_NoDup |].
  intros k Hk. rewrite length_assign_ranks.
  by apply enriched_lt, losers_subseteq.
Qed.
End result.

(** Every ticker of the company list is a key of [company_map]. *)
Lemma company_map_lookup companies c :
  c ∈ companies → is_Some (company_map companies !! c_ticker c).
Proof.
  unfold company_map.
  cut (∀ m : gmap string company,
         is_Some (m !! c_ticker c) ∨ c ∈ companies →
         is_Some (foldl (λ m c, <[c_ticker c := c]> m) m companies !! c_ticker c)).
  { intros H Hc. apply H. by right. }
  induction companies as [|c' companies IH]; intros m Hm; simpl.
  - destruct Hm as [Hm|Hm]; [done | by apply elem_of_nil in Hm].
  - apply IH. destruct Hm as [Hm|[->|Hm]%elem_of_cons].
    + left. destruct (decide (c_ticker c' = c_ticker c)) as [Heq|Hne].
      * rewrite Heq, lookup_insert_eq. eauto.
      * by rewrite lookup_insert_ne.
    + left. rewrite lookup_insert_eq. eauto.
    + by right.
Qed.

(** When every quote is of a known company, every quote has a dict. *)
Lemma length_omap_is_Some {A B} (f : A → option B) l :
  Forall (λ x, is_Some (f x)) l → length (omap f l) = length l.
Proof.
  induction 1 as [|x l [y Hy] _ IH]; [done|]. csimpl.
  rewrite Hy. simpl. by rewrite IH.
Qed.

Lemma length_enriched_of companies quotes prev :
  quotes_of_companies companies quotes →
  length (enriched_of (build_rankings companies quotes prev)) = length quotes.
Proof.
  intros Hall. unfold enriched_of, deref.
  rewrite length_fmap, enriched_perm, length_seq.
  apply length_omap_is_Some.
  eapply Forall_impl; [exact Hall|]. intros q (c & Hc & Hq).
  unfold new_stock, symbol_of. rewrite Hq. simpl.
  destruct (company_map_lookup companies c Hc) as [meta ->]. eauto.
Qed.

(** What a dict of the store says about the quote it was built from. *)
Lemma new_stock_fields cmap prev q s0 s :
  new_stock cmap prev q = Some s0 → set_rank 0 s = set_rank 0 s0 →
  is_Some (cmap !! symbol_of q) ∧
  ticker s = symbol_of q ∧ price s = current_price_of q ∧
  year_low s = Py.get0 (q_yearLow q) ∧
  change_pct s
  = Py.round (week_change_of prev (symbol_of q) (current_price_of q) q) 2.
Proof.
  unfold new_stock. intros Hnew Heq.
  destruct (cmap !! symbol_of q) as [meta|]; [|done].
  injection Hnew as <-. destruct s. by injection Heq as -> -> -> -> ->.
Qed.

(** The two branches of the week-over-week computation. *)
Lemma week_change_of_previous prev t cp q p :
  prev !! t = Some p → 0 < p →
  week_change_of prev t cp q = ((cp - p) / p) * 100.
Proof.
  intros Hp Hpos. unfold week_change_of. rewrite Hp. simpl.
  apply gt_true in Hpos. by rewrite Hpos.
Qed.



End WeeklyFacts.

Module WeeklyClaims.
Import Weekly WeeklyFacts WeeklyExamples.






(** C1 (the gainers of [build_rankings]).  The dicts of [gainers] are also
    dicts of [losers] whenever fewer than fifty stocks are enriched, and the
    loser ranks are written last, into the same dicts.  On ten stocks with
    changes of 9%, 8%, ..., 0% the gainers are returned in that order with
    the ranks 10, 9, ..., 1: the rank of [gainers[i]] is not [i + 1].  The
    losers, written last, carry 1, ..., 10. *)
Theorem weekly_gainers_ranks_overwritten :
  let r := build_rankings companies10 quotes10 previous10 in
  ticker <$> gainers_of r = ["A"; "B"; "C"; "D"; "E"; "F"; "G"; "H"; "I"; "J"] ∧
  rank <$> gainers_of r = [10; 9; 8; 7; 6; 5; 4; 3; 2; 1]%Z ∧
  ticker <$> losers_of r = ["J"; "I"; "H"; "G"; "F"; "E"; "D"; "C"; "B"; "A"] ∧
  rank <$> losers_of r = [1; 2; 3; 4; 5; 6; 7; 8; 9; 10]%Z.
Proof. vm_compute. done. Qed.

(** With ties the ranks read from [gainers] are not even a permutation of
    [1..25]: on twenty-six stocks, the first up 10% and the others
    unchanged, rank 1 occurs twice and rank 25 is missing. *)
Example weekly_gainers_ranks_duplicated :
  let r := build_rankings companies26 quotes26 previous26 in
  length (gainers_of r) = 25%nat ∧
  rank <$> gainers_of r = (1 :: seqZ 1 24)%Z ∧
  rank <$> losers_of r = seqZ 1 25.
Proof. vm_compute. done. Qed.

(** The smallest case: two stocks, one up and one down. *)
Example weekly_gainers_ranks_two :
  let r := build_rankings [co "A"; co "B"] [qu "A" 110 50; qu "B" 90 50]
             {[ "A" := 100; "B" := 100 ]} in
  ticker <$> gainers_of r = ["A"; "B"] ∧ rank <$> gainers_of r = [2; 1]%Z.
Proof. vm_compute. done. Qed.

(** The losers of [build_rankings] do carry the ranks [1..len(losers)], in
    order: the rank of [losers[i]] is [i + 1]. *)
Theorem weekly_losers_ranks_dense companies quotes prev :
  let r := build_rankings companies quotes prev in
  rank <$> losers_of r = seqZ 1 (Z.of_nat (length (losers_of r))) ∧
  ∀ i s, losers_of r !! i = Some s → rank s = (Z.of_nat i + 1)%Z.
Proof.
  cbv zeta.
  assert (rank <$> losers_of (build_rankings companies quotes prev)
          = seqZ 1 (Z.of_nat (length (losers_of (build_rankings companies quotes prev)))))
    as Hranks.
  { rewrite losers_ranks. unfold losers_of, deref. by rewrite length_fmap. }
  split; [done|]. intros i s Hi.
  assert ((rank <$> losers_of (build_rankings companies quotes prev)) !! i
          = Some (rank s)) as Hr by (by rewrite list_lookup_fmap, Hi).
  rewrite Hranks in Hr. apply lookup_seqZ in Hr. lia.
Qed.

End WeeklyClaims.

(** * The Top-25 variant *)

Module Top25Facts.
Import Top25.

Lemma top25_rank_set_rank i s : rank (set_rank i s) = i.
Proof. done. Qed.

Lemma top25_set_rank_set_rank i j s : set_rank i (set_rank j s) = set_rank i s.
Proof. done. Qed.


Section top25_loop.
Context (qm : gmap string quote).

Lemma top25_enrich_loop_heap st0 companies :
  ls_heap (foldl (enrich_step qm) st0 companies)
  = ls_heap st0 ++ omap (new_stock qm) companies.
Proof.
  revert st0. induction companies as [|c companies IH]; intros st0; simpl.
  - by rewrite app_nil_r.
  - rewrite IH. unfold enrich_step, new_stock.
    destruct (qm !! c_ticker c); simpl; [|done].
    by rewrite <- app_assoc.
Qed.

Lemma top25_enrich_loop_refs st0 companies :
  ls_enriched (foldl (enrich_step qm) st0 companies)
  = ls_enriched st0
    ++ seq (length (ls_heap st0)) (length (omap (new_stock qm) companies)).
Proof.
  revert st0. induction companies as [|c companies IH]; intros st0; simpl.
  - by rewrite app_nil_r.
  - rewrite IH. unfold enrich_step, new_stock.
    destruct (qm !! c_ticker c); simpl; [|done].
    rewrite <- app_assoc, length_app. simpl.
    by rewrite Nat.add_1_r.
Qed.
End top25_loop.

(** The store and the list of [build_enriched_data], step by step. *)
Lemma build_enriched_data_unfold companies quotes :
  let h0 := omap (new_stock (quote_map quotes)) companies in
  let d := build_enriched_data companies quotes in
  enriched d = Py.sorted_reverse (cap_key h0) (seq 0 (length h0)) ∧
  heap d = assign_ranks set_rank 1 (enriched d) h0.
Proof.
  unfold build_enriched_data, enrich_loop. simpl.
  by rewrite top25_enrich_loop_heap, top25_enrich_loop_refs.
Qed.

Section top25_result.
Context (companies : list company) (quotes : list quote).
Local Abbreviation h0 := (omap (new_stock (quote_map quotes)) companies).
Local Abbreviation res := (build_enriched_data companies quotes).

Lemma top25_enriched_perm : enriched res ≡ₚ seq 0 (length h0).
Proof.
  destruct (build_enriched_data_unfold companies quotes) as (-> & _).
  apply sorted_reverse_perm.
Qed.

Lemma top25_enriched_lt k : k ∈ enriched res → (k < length h0)%nat.
Proof. rewrite top25_enriched_perm, elem_of_seq. lia. Qed.

Lemma top25_enriched_NoDup : NoDup (enriched res).
Proof. rewrite top25_enriched_perm. apply NoDup_seq. Qed.

Lemma top25_length_heap : length (heap res) = length h0.
Proof.
  destruct (build_enriched_data_unfold companies quotes) as (_ & ->).
  by rewrite length_assign_ranks.
Qed.

Lemma top25_heap_preserves {B} (f : stock → B) k :
  (∀ j s, f (set_rank j s) = f s) → f (heap res !!! k) = f (h0 !!! k).
Proof.
  intros Hf.
  destruct (build_enriched_data_unfold companies quotes) as (_ & ->).
  by rewrite assign_ranks_preserves_total.
Qed.

(** Every dict of the returned list was built from a company that has a
    quote. *)
Lemma top25_enriched_of_origin s :
  s ∈ enriched_of res →
  ∃ c s0, c ∈ companies ∧ new_stock (quote_map quotes) c = Some s0
          ∧ set_rank 0 s = set_rank 0 s0.
Proof.
  unfold enriched_of, deref. intros (k & -> & Hk)%list_elem_of_fmap.
  apply top25_enriched_lt in Hk.
  destruct (lookup_lt_is_Some_2 h0 k Hk) as [s0 Hs0].
  pose proof (top25_heap_preserves (set_rank 0) k (top25_set_rank_set_rank 0)) as H.
  rewrite (list_lookup_total_correct _ _ _ Hs0) in H.
  apply list_elem_of_lookup_2, list_elem_of_omap in Hs0 as (c & Hc & Hnew).
  by exists c, s0.
Qed.


(** The ranks are written once, into distinct dicts. *)
Lemma top25_ranks :
  rank <$> enriched_of res = seqZ 1 (Z.of_nat (length (enriched res))).
Proof.
  unfold enriched_of.
  destruct (build_enriched_data_unfold companies quotes) as (_ & ->).
  apply rank_deref_assign_ranks; [done | apply top25_enriched_NoDup |].
  apply top25_enriched_lt.
Qed.

(** The returned list is in descending order of [market_cap or 0]. *)
Lemma top25_enriched_sorted :
  StronglySorted
    (λ a b, Py.or_zero (market_cap b) <= Py.or_zero (market_cap a))
    (enriched_of res).
Proof.
  unfold enriched_of, deref.
  eapply (StronglySorted_fmap _ (Py.key_ge (cap_key h0))).
  - intros a b. unfold Py.key_ge, cap_key.
    by rewrite !(top25_heap_preserves market_cap).
  - destruct (build_enriched_data_unfold companies quotes) as (-> & _).
    apply sorted_reverse_sorted.
Qed.
End top25_result.

(** What a dict of the store says about the company and the quote it was
    built from. *)
Lemma top25_new_stock_fields qm c s0 s :
  new_stock qm c = Some s0 → set_rank 0 s = set_rank 0 s0 →
  ∃ q, qm !! c_ticker c = Some q ∧
       ticker s = c_ticker c ∧ price s = current_price_of q ∧
       change_pct s = Py.round (week_change_of (current_price_of q) q) 2.
Proof.
  unfold new_stock. intros Hnew Heq.
  destruct (qm !! c_ticker c) as [q|]; [|done]. exists q.
  injection Hnew as <-. destruct s. by injection Heq as -> -> -> -> ->.
Qed.


(** ** The validator *)

(** [min] and [max] return an item of the list that bounds every item. *)
Lemma min_from_spec best l :
  (Py.min_from best l = best ∨ Py.min_from best l ∈ l) ∧
  Py.min_from best l <= best ∧
  ∀ x, x ∈ l → Py.min_from best l <= x.
Proof.
  unfold Py.min_from. revert best.
  induction l as [|y l IH]; intros best; simpl.
  - split_and!; [by left | lra | by intros x ?%elem_of_nil].
  - destruct (Py.lt y best) eqn:E.
    + apply lt_true in E. destruct (IH y) as (Hin & Hle & Hall). split_and!.
      * right. destruct Hin as [->|Hin]; [by left | by right].
      * lra.
      * intros x [->|Hx]%elem_of_cons; auto.
    + apply lt_false in E. destruct (IH best) as (Hin & Hle & Hall). split_and!.
      * destruct Hin as [Hin|Hin]; [by left | right; by right].
      * done.
      * intros x [->|Hx]%elem_of_cons; [lra | auto].
Qed.

Lemma max_from_spec best l :
  (Py.max_from best l = best ∨ Py.max_from best l ∈ l) ∧
  best <= Py.max_from best l ∧
  ∀ x, x ∈ l → x <= Py.max_from best l.
Proof.
  unfold Py.max_from. revert best.
  induction l as [|y l IH]; intros best; simpl.
  - split_and!; [by left | lra | by intros x ?%elem_of_nil].
  - destruct (Py.gt y best) eqn:E.
    + apply gt_true in E. destruct (IH y) as (Hin & Hle & Hall). split_and!.
      * right. destruct Hin as [->|Hin]; [by left | by right].
      * lra.
      * intros x [->|Hx]%elem_of_cons; auto.
    + apply gt_false in E. destruct (IH best) as (Hin & Hle & Hall). split_and!.
      * destruct Hin as [Hin|Hin]; [by left | right; by right].
      * done.
      * intros x [->|Hx]%elem_of_cons; [lra | auto].
Qed.

Lemma min_nonempty l :
  l ≠ [] → ∃ m, Py.min l = Py.Ok m ∧ m ∈ l ∧ ∀ x, x ∈ l → m <= x.
Proof.
  destruct l as [|y l]; [done|]. intros _. exists (Py.min_from y l).
  destruct (min_from_spec y l) as (Hin & Hle & Hall). split_and!; [done| |].
  - destruct Hin as [->|Hin]; [by left | by right].
  - intros x [->|Hx]%elem_of_cons; auto.
Qed.

Lemma max_nonempty l :
  l ≠ [] → ∃ m, Py.max l = Py.Ok m ∧ m ∈ l ∧ ∀ x, x ∈ l → x <= m.
Proof.
  destruct l as [|y l]; [done|]. intros _. exists (Py.max_from y l).
  destruct (max_from_spec y l) as (Hin & Hle & Hall). split_and!; [done| |].
  - destruct Hin as [->|Hin]; [by left | by right].
  - intros x [->|Hx]%elem_of_cons; auto.
Qed.

(** The market caps that take part in check 3. *)
Lemma elem_of_caps_of e c :
  c ∈ caps_of e ↔ ∃ s, s ∈ e ∧ market_cap s = Some c ∧ Py.truthy c = true.
Proof.
  unfold caps_of. rewrite list_elem_of_omap. split.
  - intros (s & Hs & Hc). exists s.
    destruct (market_cap s) as [c'|]; simpl in Hc; [|done].
    destruct (Py.truthy c') eqn:E; [|done]. by injection Hc as ->.
  - intros (s & Hs & Hc & Ht). exists s. split; [done|].
    rewrite Hc. simpl. by rewrite Ht.
Qed.

Lemma caps_of_app e1 e2 : caps_of (e1 ++ e2) = caps_of e1 ++ caps_of e2.
Proof. apply omap_app. Qed.

Lemma caps_of_falsy s :
  Py.truthy_opt (market_cap s) = false → caps_of [s] = [].
Proof. intros H. unfold caps_of. simpl. by rewrite H. Qed.

Lemma caps_of_all_falsy e :
  Forall (λ s, Py.truthy_opt (market_cap s) = false) e → caps_of e = [].
Proof.
  induction 1 as [|s e Hs _ IH]; [done|].
  change (s :: e) with ([s] ++ e). by rewrite caps_of_app, caps_of_falsy, IH.
Qed.

Lemma caps_of_some_truthy e :
  Exists (λ s, Py.truthy_opt (market_cap s) = true) e → caps_of e ≠ [].
Proof.
  intros (s & Hs & Ht)%Exists_exists.
  destruct (market_cap s) as [c|] eqn:Hc; [|done]. simpl in Ht.
  assert (c ∈ caps_of e) as Hin by (apply elem_of_caps_of; eauto).
  intros Hnil. rewrite Hnil in Hin. by apply elem_of_nil in Hin.
Qed.

Lemma check_tickers_spec e failed passed log :
  check_tickers e failed (passed, log)
  = (passed && all_fetched e, log ++ tickers_lines e failed) ∧
  (1 ≤ length (tickers_lines e failed))%nat.
Proof.
  unfold tickers_lines, check_tickers, all_fetched.
  destruct (bool_decide (length e = 25%nat)); simpl.
  - split; [by rewrite andb_true_r | lia].
  - rewrite andb_false_r.
    destruct failed; simpl; (split; [by rewrite <- ?app_assoc | lia]).
Qed.

Lemma check_prices_spec e passed log :
  e ≠ [] →
  check_prices e (passed, log)
  = Py.Ok (passed && prices_positive e, log ++ prices_lines e) ∧
  length (prices_lines e) = 1%nat.
Proof.
  intros He. unfold prices_lines, check_prices, prices_positive.
  assert (price <$> e ≠ []) as Hne by (by destruct e).
  destruct (min_nonempty _ Hne) as (lo & -> & _).
  destruct (max_nonempty _ Hne) as (hi & -> & _).
  destruct (forallb _ (price <$> e)); simpl.
  - by rewrite andb_true_r.
  - by rewrite andb_false_r.
Qed.

Lemma check_prices_empty st : check_prices [] st = Py.Raise Py.ValueError.
Proof. by destruct st. Qed.

Lemma check_caps_spec e passed log :
  check_caps e (passed, log) = Py.Ok (passed, log ++ caps_lines e) ∧
  length (caps_lines e) = (if decide (caps_of e = []) then 0 else 1)%nat.
Proof.
  unfold caps_lines, check_caps.
  destruct (caps_of e) as [|c cs] eqn:Hcaps; simpl.
  - by rewrite app_nil_r.
  - destruct (Py.ge _ _ && Py.le _ _); simpl; done.
Qed.

(** Check 3 logs nothing without a market cap to compare; otherwise it logs
    one line, with the least and the greatest of the compared caps. *)
Lemma caps_lines_cases e :
  match caps_of e with
  | [] => caps_lines e = []
  | _ :: _ =>
    ∃ lo hi, lo ∈ caps_of e ∧ hi ∈ caps_of e ∧
             (∀ c, c ∈ caps_of e → lo <= c ∧ c <= hi) ∧
             caps_lines e
             = [cap_range lo hi +:+
                (if cap_ok lo hi then " OK" else " WARNING (outside expected)")]
  end.
Proof.
  unfold caps_lines, check_caps.
  destruct (caps_of e) as [|c cs] eqn:Hcaps; [done|].
  assert (c :: cs ≠ []) as Hne by done.
  destruct (min_nonempty _ Hne) as (lo & -> & Hlo & Hlo_le).
  destruct (max_nonempty _ Hne) as (hi & -> & Hhi & Hhi_le).
  exists lo, hi. split_and!; [done | done | by auto |].
  cbn [Py.bind]. fold (cap_ok lo hi). fold (cap_range lo hi).
  by destruct (cap_ok lo hi).
Qed.

Lemma check_movers_spec e passed log :
  check_movers e (passed, log) = (passed, log ++ movers_lines e) ∧
  (1 ≤ length (movers_lines e))%nat.
Proof.
  unfold movers_lines, check_movers.
  destruct (filter _ e) as [|s l]; simpl; (split; [done | lia]).
Qed.

(** [validate_data] on a non-empty list: the verdict and the log, check by
    check. *)
Lemma validate_data_nonempty e failed :
  e ≠ [] →
  validate_data e failed
  = Py.Ok (all_fetched e && prices_positive e,
           tickers_lines e failed ++ prices_lines e ++ caps_lines e
           ++ movers_lines e).
Proof.
  intros He. unfold validate_data.
  rewrite (proj1 (check_tickers_spec e failed true [])).
  rewrite (proj1 (check_prices_spec e _ _ He)). cbn [Py.bind].
  rewrite (proj1 (check_caps_spec e _ _)). cbn [Py.bind].
  rewrite (proj1 (check_movers_spec e _ _)).
  cbn [andb app]. by rewrite <- !app_assoc.
Qed.

Lemma validate_data_empty failed :
  validate_data [] failed = Py.Raise Py.ValueError.
Proof. unfold validate_data. by rewrite check_prices_empty. Qed.

End Top25Facts.

Module Top25Claims.
Import Top25 Top25Facts Top25Examples.



(** The list of [build_enriched_data] carries the ranks [1..len], in order:
    the rank of the dict at position [i] is [i + 1]; and it is in descending
    order of market cap, a missing or zero market cap counting as 0. *)
Theorem top25_ranks_dense companies quotes :
  let d := build_enriched_data companies quotes in
  rank <$> enriched_of d = seqZ 1 (Z.of_nat (length (enriched_of d))) ∧
  (∀ i s, enriched_of d !! i = Some s → rank s = (Z.of_nat i + 1)%Z) ∧
  StronglySorted
    (λ a b, Py.or_zero (market_cap b) <= Py.or_zero (market_cap a))
    (enriched_of d).
Proof.
  cbv zeta.
  assert (rank <$> enriched_of (build_enriched_data companies quotes)
          = seqZ 1 (Z.of_nat (length (enriched_of (build_enriched_data companies quotes)))))
    as Hranks.
  { rewrite top25_ranks. unfold enriched_of, deref. by rewrite length_fmap. }
  split_and!; [done | | apply top25_enriched_sorted].
  intros i s Hi.
  assert ((rank <$> enriched_of (build_enriched_data companies quotes)) !! i
          = Some (rank s)) as Hr by (by rewrite list_lookup_fmap, Hi).
  rewrite Hranks in Hr. apply lookup_seqZ in Hr. lia.
Qed.

(** C6.  Whenever [validate_data] returns, [passed] is the conjunction of
    check 1 (exactly 25 entries) and check 2 (every price above 0) and of
    nothing else: neither the market caps nor the weekly changes enter it.
    It returns for every non-empty list.  An entry with a non-zero market
    cap outside the $1B-$500B band puts a WARNING line in the log. *)
Theorem top25_passed_is_checks_1_and_2 e failed :
  match validate_data e failed with
  | Py.Ok (passed, log) =>
    e ≠ [] ∧
    passed = bool_decide (length e = 25%nat)
             && forallb (λ p, Py.gt p 0) (price <$> e) ∧
    (∀ s c, s ∈ e → market_cap s = Some c → ¬ c == 0 →
       c < MIN_MARKET_CAP ∨ MAX_MARKET_CAP < c →
       ∃ range, range +:+ " WARNING (outside expected)" ∈ log)
  | Py.Raise _ => e = []
  end.
Proof.
  destruct e as [|s0 e'] eqn:He; [by rewrite validate_data_empty|].
  rewrite <- He. assert (e ≠ []) as Hne by (by rewrite He).
  rewrite (validate_data_nonempty e failed Hne).
  split_and!; [done | done |].
  intros s c Hs Hc Hnz Hout.
  assert (c ∈ caps_of e) as Hin.
  { apply elem_of_caps_of. exists s. split_and!; [done..|].
    destruct (Py.truthy c) eqn:E; [done|]. by apply truthy_false in E. }
  pose proof (caps_lines_cases e) as Hlines.
  destruct (caps_of e) as [|c0 cs]; [by apply elem_of_nil in Hin|].
  destruct Hlines as (lo & hi & _ & _ & Hbounds & Hlines).
  destruct (Hbounds c Hin) as [Hlo Hhi].
  assert (cap_ok lo hi = false) as Hok.
  { unfold cap_ok. apply andb_false_iff.
    destruct Hout as [Hlt|Hgt]; [left | right].
    - apply not_true_iff_false. rewrite ge_true. lra.
    - apply not_true_iff_false. rewrite le_true. lra. }
  rewrite Hok in Hlines. exists (cap_range lo hi).
  rewrite Hlines, !elem_of_app, list_elem_of_singleton. auto.
Qed.

(** The scenario of the specification: 25 valid entries, one of them with
    a market cap of $600B.  The run passes and the log has a WARNING line. *)
Example top25_validate_600B :
  validate_data top25_with_600B []
  = Py.Ok (true, ["Tickers fetched: 25/25 OK";
                  "Price range: $10.00 - $10.00 OK";
                  "Market cap range: $2.0B - $600.0B WARNING (outside expected)";
                  "No extreme movers (within +/-60%)"]).
Proof. vm_compute. done. Qed.

(** C7, as the code has it.  On every non-empty enriched list and every
    failed-ticker list [validate_data] returns a [(passed, log)] pair
    without raising; checks 1, 2 and 4 each append at least one line; check
    3 appends one line when some entry has a non-zero market cap, and no
    line when every market cap is missing or zero. *)
Theorem top25_validate_returns_on_nonempty e failed :
  e ≠ [] → validate_log_complete e failed.
Proof.
  intros He. unfold validate_log_complete. split_and!.
  - by apply validate_data_nonempty.
  - intros p log. apply check_tickers_spec.
  - intros p log. by apply check_prices_spec.
  - intros p log. apply check_caps_spec.
  - intros p log. apply check_movers_spec.
  - apply (check_tickers_spec e failed true []).
  - by apply (check_prices_spec e true []).
  - intros Hex%caps_of_some_truthy.
    destruct (check_caps_spec e true []) as [_ ->]. by case_decide.
  - intros Hall%caps_of_all_falsy.
    destruct (check_caps_spec e true []) as [_ Hlen].
    rewrite decide_True in Hlen by done. by apply nil_length_inv.
  - apply (check_movers_spec e true []).
Qed.

Lemma top25_validate_returns_on_nonempty_witness :
  validate_log_complete [mk "A" 10 1 (Some 2000000000)] ["B"].
Proof. apply top25_validate_returns_on_nonempty. discriminate. Defined.

(** C7, as stated, fails twice.  On the empty list [min(prices)] raises
    [ValueError]; and on a list whose market caps are all missing or zero
    check 3 appends no line, so the log has the lines of three checks. *)
Lemma top25_validate_not_total :
  validate_data [] [] = Py.Raise Py.ValueError ∧
  validate_data [mk "A" 10 1 None; mk "B" 20 2 (Some 0)] []
  = Py.Ok (false, ["Tickers fetched: 2/25 FAILED";
                   "Price range: $10.00 - $20.00 OK";
                   "No extreme movers (within +/-60%)"]) ∧
  check_caps [mk "A" 10 1 None; mk "B" 20 2 (Some 0)]
    (false, ["Tickers fetched: 2/25 FAILED"; "Price range: $10.00 - $20.00 OK"])
  = Py.Ok (false, ["Tickers fetched: 2/25 FAILED";
                   "Price range: $10.00 - $20.00 OK"]).
Proof. vm_compute. done. Qed.

(** C10.  In check 3 an entry whose market cap is missing or zero is left
    out of the comparison: removing it changes nothing of what the check
    does; a list of such entries logs nothing, so no WARNING; and the least
    and greatest caps a logged line reports are non-zero market caps of
    entries of the list, which alone decide between OK and WARNING. *)
Theorem top25_zero_cap_excluded :
  (∀ e1 s e2 st,
     market_cap s = None ∨ (∃ c, market_cap s = Some c ∧ c == 0) →
     check_caps (e1 ++ s :: e2) st = check_caps (e1 ++ e2) st) ∧
  (∀ e st,
     Forall (λ s, market_cap s = None ∨ ∃ c, market_cap s = Some c ∧ c == 0) e →
     check_caps e st = Py.Ok st) ∧
  (∀ e p log,
     check_caps e (p, log) = Py.Ok (p, log) ∨
     ∃ lo hi s_lo s_hi,
       s_lo ∈ e ∧ market_cap s_lo = Some lo ∧ ¬ lo == 0 ∧
       s_hi ∈ e ∧ market_cap s_hi = Some hi ∧ ¬ hi == 0 ∧
       check_caps e (p, log)
       = Py.Ok (p, log ++ [cap_range lo hi +:+
                  (if cap_ok lo hi then " OK" else " WARNING (outside expected)")])).
Proof.
  assert (∀ s, market_cap s = None ∨ (∃ c, market_cap s = Some c ∧ c == 0) →
               Py.truthy_opt (market_cap s) = false) as Hfalsy.
  { intros s [->|(c & -> & Hc)]; [done|]. by apply truthy_false. }
  split_and!.
  - intros e1 s e2 [p log] Hs%Hfalsy. unfold check_caps.
    change (s :: e2) with ([s] ++ e2).
    by rewrite !caps_of_app, (caps_of_falsy s Hs).
  - intros e [p log] Hall. unfold check_caps.
    rewrite caps_of_all_falsy; [done|].
    eapply Forall_impl; [exact Hall|]. apply Hfalsy.
  - intros e p log. destruct (check_caps_spec e p log) as [-> _].
    pose proof (caps_lines_cases e) as Hlines.
    destruct (caps_of e) as [|c0 cs] eqn:Hcaps.
    + left. by rewrite Hlines, app_nil_r.
    + right. destruct Hlines as (lo & hi & Hlo & Hhi & _ & ->).
      rewrite <- Hcaps in Hlo, Hhi.
      apply elem_of_caps_of in Hlo as (s_lo & ? & ? & Hlo).
      apply elem_of_caps_of in Hhi as (s_hi & ? & ? & Hhi).
      exists lo, hi, s_lo, s_hi. split_and!; [done.. | | done | done | | done].
      * intros Hz. apply truthy_false in Hz. congruence.
      * intros Hz. apply truthy_false in Hz. congruence.
Qed.

End Top25Claims.

(** * Spotlights *)

Module SpotlightClaims.

(** [find_spotlight_stocks]: the first and the last of the list sorted by
    descending change. *)
Lemma find_spotlight_stocks_spec (e : list Top25.stock) :
  match Top25.find_spotlight_stocks e with
  | (Some g, Some l) =>
    g ∈ e ∧ l ∈ e ∧
    ∀ s, s ∈ e → Top25.change_pct l <= Top25.change_pct s
                 ∧ Top25.change_pct s <= Top25.change_pct g
  | (None, None) => e = []
  | _ => False
  end.
Proof.
  unfold Top25.find_spotlight_stocks.
  pose proof (sorted_reverse_perm Top25.change_pct e) as Hperm.
  pose proof (sorted_reverse_sorted Top25.change_pct e) as Hsorted.
  destruct (head (Py.sorted_reverse Top25.change_pct e)) as [g|] eqn:Hg.
  - destruct (last (Py.sorted_reverse Top25.change_pct e)) as [l|] eqn:Hl.
    + split_and!.
      * rewrite <- Hperm. by eapply head_Some_elem_of.
      * rewrite <- Hperm. by eapply last_Some_elem_of.
      * intros s Hs. rewrite <- Hperm in Hs. split.
        -- by apply (StronglySorted_last (Py.key_ge Top25.change_pct) _ l s Hsorted).
        -- by apply (StronglySorted_head (Py.key_ge Top25.change_pct) _ g s Hsorted).
    + apply last_None in Hl. by rewrite Hl in Hg.
  - apply head_None in Hg. rewrite Hg in Hperm.
    apply Permutation_nil_l in Hperm. subst e. by rewrite Hg.
Qed.

(** C8.  [find_spotlight_stocks] returns as gainer an element with the
    greatest [change_pct] of its input and as loser an element with the
    least; on the empty list it returns [(None, None)].  In the weekly
    variant [gainers[0] if gainers else None] and
    [losers[0] if losers else None] are likewise an enriched dict with the
    greatest and one with the least [change_pct], and both [None] when
    nothing was enriched.  Both are total: the empty case is a value, not an
    error. *)
Theorem spotlights_are_extremal :
  (∀ e : list Top25.stock,
     match Top25.find_spotlight_stocks e with
     | (Some g, Some l) =>
       g ∈ e ∧ l ∈ e ∧
       ∀ s, s ∈ e → Top25.change_pct l <= Top25.change_pct s
                    ∧ Top25.change_pct s <= Top25.change_pct g
     | (None, None) => e = []
     | _ => False
     end) ∧
  (∀ companies quotes prev,
     let r := Weekly.build_rankings companies quotes prev in
     match Weekly.spotlight_gainer r, Weekly.spotlight_loser r with
     | Some g, Some l =>
       g ∈ Weekly.enriched_of r ∧ l ∈ Weekly.enriched_of r ∧
       ∀ s, s ∈ Weekly.enriched_of r →
            Weekly.change_pct l <= Weekly.change_pct s
            ∧ Weekly.change_pct s <= Weekly.change_pct g
     | None, None => Weekly.enriched_of r = []
     | _, _ => False
     end) ∧
  Top25.find_spotlight_stocks [] = (None, None).
Proof.
  split_and!; [apply find_spotlight_stocks_spec | | done].
  intros companies quotes prev. cbv zeta.
  unfold Weekly.spotlight_gainer, Weekly.spotlight_loser.
  pose proof (WeeklyFacts.gainers_head companies quotes prev) as Hg.
  pose proof (WeeklyFacts.losers_head companies quotes prev) as Hl.
  destruct (head (Weekly.gainers_of _)) as [g|],
           (head (Weekly.losers_of _)) as [l|].
  - destruct Hg as [Hg1 Hg2], Hl as [Hl1 Hl2]. split_and!; [done..|].
    intros s Hs. split; auto.
  - destruct Hg as [Hg1 _]. rewrite Hl in Hg1. by apply elem_of_nil in Hg1.
  - destruct Hl as [Hl1 _]. rewrite Hg in Hl1. by apply elem_of_nil in Hl1.
  - done.
Qed.

(** In [main] of the weekly variant the prints of the spotlights never
    subscript [None]: past the guard there are at least ten quotes, all of
    companies of the list, so both spotlights are present. *)
Theorem weekly_main_spotlights_present companies quotes prev :
  Weekly.quotes_of_companies companies quotes →
  Weekly.main_spotlights companies quotes prev = None ∨
  Weekly.main_spotlights companies quotes prev = Some (Py.Ok ()).
Proof.
  intros Hall. unfold Weekly.main_spotlights. case_bool_decide as Hlen.
  - by left.
  - right. f_equal.
    pose proof (WeeklyFacts.length_enriched_of _ _ prev Hall) as Hn.
    pose proof (WeeklyFacts.gainers_head companies quotes prev) as Hg.
    pose proof (WeeklyFacts.losers_head companies quotes prev) as Hl.
    unfold Weekly.spotlight_gainer, Weekly.spotlight_loser.
    destruct (head (Weekly.gainers_of _)) as [g|];
      [|rewrite Hg in Hn; simpl in Hn; lia].
    destruct (head (Weekly.losers_of _)) as [l|];
      [done | rewrite Hl in Hn; simpl in Hn; lia].
Qed.

Lemma weekly_main_spotlights_present_witness :
  Weekly.main_spotlights WeeklyExamples.companies10 WeeklyExamples.quotes10
    WeeklyExamples.previous10 = None ∨
  Weekly.main_spotlights WeeklyExamples.companies10 WeeklyExamples.quotes10
    WeeklyExamples.previous10 = Some (Py.Ok ()).
Proof.
  apply weekly_main_spotlights_present.
  unfold Weekly.quotes_of_companies, WeeklyExamples.quotes10,
    WeeklyExamples.companies10, WeeklyExamples.tickers10.
  cbn [zip_with fmap list_fmap].
  repeat (apply Forall_cons; split;
          [eexists (WeeklyExamples.co _); split; [|reflexivity];
           repeat first [apply list_elem_of_here | apply list_elem_of_further] |]).
  apply Forall_nil_2.
Defined.

(** Without the guard the prints do raise: on no quote at all both
    spotlights are [None]. *)
Example weekly_print_spotlights_none :
  let r := Weekly.build_rankings WeeklyExamples.companies10 [] ∅ in
  Weekly.print_spotlights (Weekly.spotlight_gainer r) (Weekly.spotlight_loser r)
  = Py.Raise Py.TypeError.
Proof. vm_compute. done. Qed.

End SpotlightClaims.

(** * The price-history snapshot *)

Module PriceHistoryClaims.
Import PriceHistory.


Section roundtrip.
Context {text : Type}.
Variable json_dumps : pyobj → text.
Variable json_loads : text → Py.result pyobj.

(** The contract of the [json] library taken here: a document that was
  dumped loads back as the same document. *)
Hypothesis json_loads_dumps : ∀ v, json_loads (json_dumps v) = Py.Ok v.


End roundtrip.


(** Without a file, [load_price_history] returns the empty dict. *)
Example price_history_first_run {text} (json_loads : text → Py.result pyobj) :
  load_price_history json_loads {| price_history_file := None |}
  = Py.Ok (prices_object ∅).
Proof. unfold prices_object. by rewrite fmap_empty. Qed.

End PriceHistoryClaims.

(** * P/E extremes and anchor companies *)

Module BuildFacts.
Import Weekly.

Lemma StronglySorted_drop {A} (R : relation A) n (l : list A) :
  StronglySorted R l → StronglySorted R (drop n l).
Proof.
  intros Hl. rewrite <- (take_drop n l) in Hl.
  by apply StronglySorted_app_1_r in Hl.
Qed.

(** An item of a sorted list that is not among the first [n] is after each
    of them; one that is not among those from [n] on is before each of
    them. *)
Lemma sorted_take_bounds {A} (R : relation A) n (l : list A) x y :
  StronglySorted R l → x ∈ take n l → y ∈ l → y ∉ take n l → R x y.
Proof.
  intros Hl Hx Hy Hny. rewrite <- (take_drop n l) in Hl, Hy.
  apply elem_of_app in Hy as [Hy|Hy]; [done|].
  by eapply StronglySorted_app_1_elem_of.
Qed.

Lemma sorted_drop_bounds {A} (R : relation A) n (l : list A) x y :
  StronglySorted R l → x ∈ drop n l → y ∈ l → y ∉ drop n l → R y x.
Proof.
  intros Hl Hx Hy Hny. rewrite <- (take_drop n l) in Hl, Hy.
  apply elem_of_app in Hy as [Hy|Hy]; [|done].
  by eapply StronglySorted_app_1_elem_of.
Qed.

Lemma truthy_and_positive_pe_key s :
  Py.truthy_and_positive (pe s) = true ↔ ∃ p, pe s = Some p ∧ 0 < p.
Proof. apply truthy_and_positive_true. Qed.

(** The 3 highest and the 3 lowest P/E of the weekly variant.  Both lists
    hold dicts of the input with a P/E above 0 only, never one whose P/E is
    [None], zero or negative; each has [min(3, n)] dicts for [n] such dicts
    in the input, in descending order of P/E (the lowest P/E is the last of
    [lowest]); every qualifying dict outside [highest] has a P/E at most
    that of each dict in it, and dually for [lowest]; with at most 3
    qualifying dicts the two lists are the same list. *)
Theorem weekly_pe_extremes_spec (e : list stock) :
  let n := length (filter (λ s, Py.truthy_and_positive (pe s) = true) e) in
  let highest := (Build.compute_pe_extremes e).1 in
  let lowest := (Build.compute_pe_extremes e).2 in
  (∀ s, s ∈ highest ++ lowest → s ∈ e ∧ ∃ p, pe s = Some p ∧ 0 < p) ∧
  length highest = (3 `min` n)%nat ∧ length lowest = (3 `min` n)%nat ∧
  StronglySorted (Py.key_ge Build.pe_key) highest ∧
  StronglySorted (Py.key_ge Build.pe_key) lowest ∧
  (∀ h s ph ps, h ∈ highest → pe h = Some ph → s ∈ e → pe s = Some ps →
     0 < ps → s ∉ highest → ps <= ph) ∧
  (∀ l s pl ps, l ∈ lowest → pe l = Some pl → s ∈ e → pe s = Some ps →
     0 < ps → s ∉ lowest → pl <= ps) ∧
  ((n ≤ 3)%nat → highest = lowest).
Proof.
  cbv zeta. unfold Build.compute_pe_extremes. cbn [fst snd].
  set (F := filter (λ s, Py.truthy_and_positive (pe s) = true) e).
  set (W := Py.sorted_reverse Build.pe_key F).
  assert (W ≡ₚ F) as Hperm by apply sorted_reverse_perm.
  assert (StronglySorted (Py.key_ge Build.pe_key) W) as Hsorted
    by apply sorted_reverse_sorted.
  assert (length W = length F) as Hlen by (by rewrite Hperm).
  assert (∀ s, s ∈ W ↔ (∃ p, pe s = Some p ∧ 0 < p) ∧ s ∈ e) as HW.
  { intros s. rewrite Hperm. unfold F.
    by rewrite list_elem_of_filter, truthy_and_positive_pe_key. }
  split_and!.
  - intros s Hs.
    assert (s ∈ W) as [??]%HW; [|done].
    apply elem_of_app in Hs as [Hs|Hs].
    + by eapply (sublist_subseteq _ _ (sublist_take _ _)).
    + by eapply subseteq_drop.
  - rewrite length_take. lia.
  - rewrite length_drop. lia.
  - by apply StronglySorted_take.
  - by apply StronglySorted_drop.
  - intros h s ph ps Hh Hph Hs Hps Hpos Hnot.
    assert (s ∈ W) as HsW by (apply HW; eauto).
    pose proof (sorted_take_bounds _ 3 W h s Hsorted Hh HsW Hnot) as Hle.
    unfold Py.key_ge, Build.pe_key in Hle. by rewrite Hph, Hps in Hle.
  - intros l s pl ps Hl Hpl Hs Hps Hpos Hnot.
    assert (s ∈ W) as HsW by (apply HW; eauto).
    pose proof (sorted_drop_bounds _ _ W l s Hsorted Hl HsW Hnot) as Hle.
    unfold Py.key_ge, Build.pe_key in Hle. by rewrite Hpl, Hps in Hle.
  - intros Hn. rewrite take_ge by lia.
    replace (length W - 3)%nat with 0%nat by lia. done.
Qed.

(** With six qualifying dicts of distinct P/E the two lists do not meet;
    with four they share two dicts. *)
Example weekly_pe_extremes_overlap :
  let mk p := {| rank := 0; name := ""; ticker := ""; city := ""; price := 1;
                 change_pct := 0; year_high := None; year_low := None;
                 market_cap := None; pe := p; volume := None |} in
  let pes l := ((λ s, pe s) <$> l) in
  pes (Build.compute_pe_extremes
         (mk <$> [Some 5; None; Some 30; Some (-2); Some 12; Some 0; Some 8])).1
  = [Some 30; Some 12; Some 8] ∧
  pes (Build.compute_pe_extremes
         (mk <$> [Some 5; None; Some 30; Some (-2); Some 12; Some 0; Some 8])).2
  = [Some 12; Some 8; Some 5].
Proof. vm_compute. done. Qed.

Lemma sublist_fmap_filter {A B} (f : A → B) (P : A → Prop)
    `{!∀ x, Decision (P x)} (l : list A) :
  f <$> filter P l `sublist_of` f <$> l.
Proof.
  induction l as [|x l IH]; [done|]. rewrite filter_cons, !fmap_cons.
  destruct (decide (P x)).
  - rewrite fmap_cons. by apply sublist_skip.
  - by apply sublist_cons.
Qed.

(** What [symbols] returns. *)
Lemma symbols_spec quotes :
  match Build.symbols quotes with
  | Py.Ok syms => Some <$> syms = q_symbol <$> quotes
  | Py.Raise e => e = Py.KeyError ∧ ∃ q, q ∈ quotes ∧ q_symbol q = None
  end.
Proof.
  induction quotes as [|q quotes IH]; [done|]. simpl.
  destruct (q_symbol q) as [t|] eqn:Hq.
  - destruct (Build.symbols quotes) as [syms|e]; simpl.
    + f_equal. exact IH.
    + destruct IH as (-> & q' & Hq' & Hnone). split; [done|].
      exists q'. split; [by right | done].
  - split; [done|]. exists q. split; [by left | done].
Qed.

(** The two ways [validate_anchor_companies] ends, and which tickers it
    returns. *)
Lemma missing_anchors_cases quotes :
  match Build.validate_anchor_companies quotes with
  | Py.Ok missing =>
    Forall (λ q, is_Some (q_symbol q)) quotes ∧
    (∀ t, t ∈ missing ↔
          t ∈ Build.ANCHOR_COMPANIES.*1 ∧ ∀ q, q ∈ quotes → q_symbol q ≠ Some t)
  | Py.Raise e => e = Py.KeyError ∧ ∃ q, q ∈ quotes ∧ q_symbol q = None
  end.
Proof.
  unfold Build.validate_anchor_companies.
  pose proof (symbols_spec quotes) as Hsym.
  destruct (Build.symbols quotes) as [syms|e]; [|done]. cbn [Py.bind].
  assert (∀ t, t ∈ syms ↔ ∃ q, q ∈ quotes ∧ q_symbol q = Some t) as Hin.
  { intros t. rewrite <- (list_elem_of_fmap_inj Some), Hsym, list_elem_of_fmap.
    split; intros (q & Hq & Heq); exists q; by split. }
  split.
  - apply Forall_forall. intros q Hq.
    assert (q_symbol q ∈ Some <$> syms) as (t & -> & _)%list_elem_of_fmap; [|done].
    rewrite Hsym. by apply list_elem_of_fmap_2.
  - intros t. rewrite list_elem_of_fmap. split.
    + intros ([t' n] & -> & [Hnot Hanchor]%list_elem_of_filter).
      cbn [fst] in Hnot |- *.
      split; [by apply (list_elem_of_fmap_2 fst _ (t', n))|].
      intros q Hq Heq. apply Hnot, elem_of_list_to_set, Hin. eauto.
    + intros [([t' n] & -> & Hanchor)%list_elem_of_fmap Hno]. cbn [fst] in Hno |- *.
      exists (t', n). split; [done|]. apply list_elem_of_filter. split; [|done].
      cbn [fst]. intros (q & Hq & Heq)%elem_of_list_to_set%Hin. by eapply Hno.
Qed.

(** [validate_anchor_companies] returns the anchor tickers no quote has as
    its symbol, each once, in the order of [ANCHOR_COMPANIES]; it raises
    [KeyError] exactly when some quote has no ["symbol"] key. *)
Theorem validate_anchor_companies_spec quotes :
  match Build.validate_anchor_companies quotes with
  | Py.Ok missing =>
    Forall (λ q, is_Some (q_symbol q)) quotes ∧
    (∀ t, t ∈ missing ↔
          t ∈ Build.ANCHOR_COMPANIES.*1 ∧ ∀ q, q ∈ quotes → q_symbol q ≠ Some t) ∧
    NoDup missing ∧
    missing `sublist_of` Build.ANCHOR_COMPANIES.*1
  | Py.Raise e => e = Py.KeyError ∧ ∃ q, q ∈ quotes ∧ q_symbol q = None
  end.
Proof.
  pose proof (missing_anchors_cases quotes) as Hcases.
  unfold Build.validate_anchor_companies in *.
  destruct (Build.symbols quotes) as [syms|e]; [|done]. cbn [Py.bind] in *.
  destruct Hcases as [Hall Hin]. split_and!; [done | done | |].
  - eapply sublist_NoDup; [|apply sublist_fmap_filter].
    apply (bool_decide_unpack (NoDup Build.ANCHOR_COMPANIES.*1)). by vm_compute.
  - apply sublist_fmap_filter.
Qed.

End BuildFacts.

Module BuildTop25Facts.
Import Top25.

(** The highest and the lowest P/E of the Top-25 variant: dicts of the
    input with a P/E above 0, whose P/E bound the P/E of every such dict;
    both are [None] exactly when no dict of the input has a P/E above 0. *)
Theorem top25_pe_extremes_spec (e : list stock) :
  match BuildTop25.compute_pe_extremes e with
  | (Some h, Some l) =>
    h ∈ e ∧ l ∈ e ∧
    ∃ ph pl, pe h = Some ph ∧ 0 < ph ∧ pe l = Some pl ∧ 0 < pl ∧
             ∀ s p, s ∈ e → pe s = Some p → 0 < p → pl <= p ∧ p <= ph
  | (None, None) => ∀ s p, s ∈ e → pe s = Some p → ¬ 0 < p
  | _ => False
  end.
Proof.
  unfold BuildTop25.compute_pe_extremes.
  set (F := filter (λ s, Py.truthy_and_positive (pe s) = true) e).
  set (W := Py.sorted_reverse BuildTop25.pe_key F).
  assert (W ≡ₚ F) as Hperm by apply sorted_reverse_perm.
  assert (StronglySorted (Py.key_ge BuildTop25.pe_key) W) as Hsorted
    by apply sorted_reverse_sorted.
  assert (∀ s, s ∈ W ↔ (∃ p, pe s = Some p ∧ 0 < p) ∧ s ∈ e) as HW.
  { intros s. rewrite Hperm. unfold F.
    by rewrite list_elem_of_filter, truthy_and_positive_true. }
  destruct (head W) as [h|] eqn:Hh.
  - destruct (last W) as [l|] eqn:Hl.
    + apply head_Some_elem_of in Hh as HhW. apply last_Some_elem_of in Hl as HlW.
      apply HW in HhW as [(ph & Hph & Hphpos) Hhe].
      apply HW in HlW as [(pl & Hpl & Hplpos) Hle].
      split_and!; [done..|]. exists ph, pl. split_and!; [done..|].
      intros s p Hs Hp Hpos.
      assert (s ∈ W) as HsW by (apply HW; eauto).
      pose proof (StronglySorted_last _ _ l s Hsorted Hl HsW) as H1.
      pose proof (StronglySorted_head _ _ h s Hsorted Hh HsW) as H2.
      unfold Py.key_ge, BuildTop25.pe_key in H1, H2.
      rewrite Hpl, Hp in H1. rewrite Hph, Hp in H2. by split.
    + apply last_None in Hl. by rewrite Hl in Hh.
  - apply head_None in Hh. rewrite Hh. simpl.
    intros s p Hs Hp Hpos.
    assert (s ∈ W) as HsW by (apply HW; eauto).
    rewrite Hh in HsW. by apply elem_of_nil in HsW.
Qed.

End BuildTop25Facts.

(** * More facts about the prelude *)

(** Equality of two numbers ([x == y]) can be decided. *)
Global Instance Qeq_decision (x y : Q) : Decision (x == y) := Qeq_dec x y.

Section more_prelude_facts.

(** A dict filled key by key holds, under each key, the value written
    last. *)
Lemma foldl_insert_last {A V} (key : A → string) (val : A → V) (l : list A)
    (m0 : gmap string V) t :
  foldl (λ m x, <[key x := val x]> m) m0 l !! t
  = match last (filter (λ x, key x = t) l) with
    | Some x => Some (val x)
    | None => m0 !! t
    end.
Proof.
  induction l as [|x l IH] using rev_ind; [done|].
  rewrite foldl_app, filter_app, filter_cons, filter_nil. cbn [foldl].
  destruct (decide (key x = t)) as [<-|Hne].
  - by rewrite lookup_insert_eq, last_snoc.
  - by rewrite lookup_insert_ne, app_nil_r.
Qed.

Lemma filter_none {A} (P : A → Prop) `{!∀ x, Decision (P x)} (l : list A) :
  (∀ x, x ∈ l → ¬ P x) → filter P l = [].
Proof.
  induction l as [|x l IH]; intros Hl; [done|].
  rewrite filter_cons_False by (apply Hl; by left).
  apply IH. intros y Hy. apply Hl. by right.
Qed.

Lemma filter_key_NoDup {A B} `{!EqDecision B} (f : A → B) (l : list A) x :
  NoDup (f <$> l) → x ∈ l → filter (λ y, f y = f x) l = [x].
Proof.
  induction l as [|y l IH]; intros Hnd Hx; [by apply elem_of_nil in Hx|].
  rewrite fmap_cons in Hnd. apply NoDup_cons in Hnd as [Hy Hnd].
  apply elem_of_cons in Hx as [->|Hx].
  - rewrite filter_cons_True by done. f_equal.
    apply filter_none. intros z Hz Heq. apply Hy. rewrite <- Heq.
    by apply list_elem_of_fmap_2.
  - rewrite filter_cons_False; [by apply IH|].
    intros Heq. apply Hy. rewrite Heq. by apply list_elem_of_fmap_2.
Qed.

(** A number that is zero rounds to 0, whatever its denominator. *)
Lemma round_zero_num x nd : Qnum x = 0%Z → Py.round x nd = 0.
Proof.
  intros Hx. unfold Py.round.
  assert (Py.round_half_even (x * inject_Z (Py.pow10 nd)) = 0%Z) as ->.
  { unfold Py.round_half_even. cbn [Qnum Qmult]. rewrite Hx, Z.mul_0_l.
    rewrite Z.div_0_l by done. rewrite Zmod_0_l. done. }
  transitivity (Qred 0); [|done]. apply Qred_complete.
  unfold Qdiv. apply Qmult_0_l.
Qed.

Lemma unchanged_price_num p : Qnum ((p - p) / p * 100) = 0%Z.
Proof.
  destruct p as [a b]. unfold Qminus, Qplus, Qopp, Qdiv, Qmult. cbn [Qnum Qden].
  replace (a * Z.pos b + - a * Z.pos b)%Z with 0%Z by lia.
  by rewrite !Z.mul_0_l.
Qed.

(** The sort is stable: the items of one key come out in the order they
    came in. *)
Lemma insert_sorted_stable {A} (key : A → Q) k x (l : list A) :
  StronglySorted (Py.key_le key) l →
  filter (λ y, key y == k) (Py.insert_sorted key x l)
  = filter (λ y, key y == k) l ++ filter (λ y, key y == k) [x].
Proof.
  induction 1 as [|y l Hl IH Hy]; [by rewrite app_nil_l|]. simpl.
  destruct (Py.lt (key x) (key y)) eqn:E.
  - apply lt_true in E.
    rewrite (filter_cons _ x), (filter_cons _ x []), filter_nil.
    destruct (decide (key x == k)) as [Hk|Hk]; [|by rewrite app_nil_r].
    rewrite (filter_none _ (y :: l)); [done|].
    intros z Hz Hzk. rewrite Forall_forall in Hy.
    assert (key y <= key z) as Hyz.
    { apply elem_of_cons in Hz as [->|Hz]; [lra | by apply Hy]. }
    rewrite Hzk, <- Hk in Hyz. lra.
  - rewrite (filter_cons _ y), (filter_cons _ y l), IH.
    by destruct (decide (key y == k)).
Qed.

Lemma foldl_insert_stable {A} (key : A → Q) k (acc l : list A) :
  StronglySorted (Py.key_le key) acc →
  filter (λ y, key y == k) (foldl (λ acc x, Py.insert_sorted key x acc) acc l)
  = filter (λ y, key y == k) acc ++ filter (λ y, key y == k) l.
Proof.
  revert acc. induction l as [|x l IH]; intros acc Hacc; simpl.
  - by rewrite app_nil_r.
  - rewrite IH by (by apply insert_sorted_sorted).
    rewrite insert_sorted_stable by done.
    rewrite <- app_assoc. f_equal. by rewrite <- filter_app.
Qed.

Lemma sorted_stable {A} (key : A → Q) k (l : list A) :
  filter (λ y, key y == k) (Py.sorted key l) = filter (λ y, key y == k) l.
Proof. unfold Py.sorted. rewrite foldl_insert_stable; [done | constructor]. Qed.

Lemma sorted_reverse_stable {A} (key : A → Q) k (l : list A) :
  filter (λ y, key y == k) (Py.sorted_reverse key l) = filter (λ y, key y == k) l.
Proof.
  unfold Py.sorted_reverse.
  by rewrite filter_reverse, sorted_stable, filter_reverse, reverse_involutive.
Qed.

(** The first of a list sorted in descending order is the first, in the
    order of the input, of the items with its key; the last is the last of
    the items with its key. *)
Lemma sorted_reverse_head_first {A} (key : A → Q) (l : list A) g :
  head (Py.sorted_reverse key l) = Some g →
  head (filter (λ y, key y == key g) l) = Some g.
Proof.
  intros Hg. rewrite <- (sorted_reverse_stable key (key g) l).
  destruct (Py.sorted_reverse key l) as [|g' S]; [done|]. injection Hg as ->.
  by rewrite filter_cons_True.
Qed.

Lemma sorted_reverse_last_last {A} (key : A → Q) (l : list A) g :
  last (Py.sorted_reverse key l) = Some g →
  last (filter (λ y, key y == key g) l) = Some g.
Proof.
  intros Hg. rewrite <- (sorted_reverse_stable key (key g) l).
  apply last_Some in Hg as [S ->].
  rewrite filter_app, filter_cons_True, filter_nil by done. apply last_snoc.
Qed.

Lemma sorted_head_first {A} (key : A → Q) (l : list A) g :
  head (Py.sorted key l) = Some g →
  head (filter (λ y, key y == key g) l) = Some g.
Proof.
  intros Hg. rewrite <- (sorted_stable key (key g) l).
  destruct (Py.sorted key l) as [|g' S]; [done|]. injection Hg as ->.
  by rewrite filter_cons_True.
Qed.

Lemma deref_seq {A} `{!Inhabited A} (h : list A) :
  deref h (seq 0 (length h)) = h.
Proof.
  apply list_eq. intros i. unfold deref. rewrite list_lookup_fmap.
  destruct (h !! i) as [x|] eqn:Hi.
  - rewrite lookup_seq_lt by (by eapply lookup_lt_Some). simpl.
    by rewrite (list_lookup_total_correct _ _ _ Hi).
  - rewrite lookup_seq_ge; [done|]. by apply lookup_ge_None.
Qed.

End more_prelude_facts.

(** * Enrichment: the tickers that are kept and the snapshot of prices *)

Module EnrichFacts.
Import Weekly WeeklyFacts.

Section weekly_enrich.
Context (companies : list company) (quotes : list quote) (prev : gmap string Q).
Local Abbreviation cmap := (company_map companies).
Local Abbreviation h0 := (omap (new_stock cmap prev) quotes).
Local Abbreviation res := (build_rankings companies quotes prev).

(** [company_map] holds, under each ticker, the last company of the list
    with that ticker. *)
Lemma company_map_last t :
  cmap !! t = last (filter (λ c, c_ticker c = t) companies).
Proof.
  unfold company_map.
  rewrite (foldl_insert_last c_ticker (λ c, c) companies ∅ t).
  by destruct (last _).
Qed.

Lemma company_map_is_Some t :
  is_Some (cmap !! t) ↔ t ∈ c_ticker <$> companies.
Proof.
  rewrite company_map_last, last_is_Some, list_elem_of_fmap. split.
  - intros Hne. destruct (filter _ companies) as [|c l] eqn:Hf; [done|].
    assert (c ∈ filter (λ c, c_ticker c = t) companies) as Hc
      by (rewrite Hf; by left).
    apply list_elem_of_filter in Hc as [??]. eauto.
  - intros (c & Ht & Hc) Hnil. symmetry in Ht.
    assert (c ∈ filter (λ c, c_ticker c = t) companies) as Hin
      by (by apply list_elem_of_filter).
    rewrite Hnil in Hin. by apply elem_of_nil in Hin.
Qed.

(** Ranks aside, the store is the list of dicts the loop built. *)
Lemma heap_fmap {B} (f : stock → B) :
  (∀ j s, f (set_rank j s) = f s) → f <$> heap res = f <$> h0.
Proof.
  intros Hf. apply list_eq. intros i. rewrite !list_lookup_fmap.
  pose proof (length_heap companies quotes prev) as Hlen.
  pose proof (heap_preserves companies quotes prev f i Hf) as Hi.
  rewrite !list_lookup_total_alt in Hi.
  destruct (heap res !! i) as [s|] eqn:Hs, (h0 !! i) as [s0|] eqn:Hs0;
    simpl in *; [by rewrite Hi | | | done].
  - apply lookup_lt_Some in Hs. apply lookup_ge_None in Hs0. lia.
  - apply lookup_lt_Some in Hs0. apply lookup_ge_None in Hs. lia.
Qed.

(** The returned [enriched] holds every dict of the store once. *)
Lemma enriched_of_perm : enriched_of res ≡ₚ heap res.
Proof.
  unfold enriched_of.
  rewrite <- (deref_seq (heap res)) at 2.
  unfold deref. apply fmap_Permutation.
  rewrite enriched_perm, length_heap. done.
Qed.

Lemma new_stock_tickers :
  ticker <$> h0 = filter (λ t, is_Some (cmap !! t)) (symbol_of <$> quotes).
Proof.
  induction quotes as [|q qs IH]; [done|]. csimpl.
  rewrite filter_cons. unfold new_stock at 1.
  destruct (cmap !! symbol_of q) as [meta|] eqn:Hq.
  - rewrite decide_True by eauto. csimpl. by rewrite IH.
  - rewrite decide_False by (by intros [??]). done.
Qed.

(** The snapshot of prices the loop fills. *)
Lemma enrich_loop_prices st0 :
  ls_current_prices (foldl (enrich_step cmap prev) st0 quotes)
  = foldl (λ m q, <[symbol_of q := current_price_of q]> m)
      (ls_current_prices st0)
      (filter (λ q, is_Some (cmap !! symbol_of q)) quotes).
Proof.
  revert st0. induction quotes as [|q qs IH]; intros st0; [done|].
  cbn [foldl]. rewrite IH, filter_cons. unfold enrich_step.
  destruct (cmap !! symbol_of q) as [meta|] eqn:Hq.
  - rewrite decide_True by eauto. done.
  - rewrite decide_False by (by intros [??]). done.
Qed.
End weekly_enrich.

(** [build_rankings] keeps the quotes of the tickers of the company list,
    one dict for each such quote (a symbol quoted twice gives two dicts), and
    drops every other quote; a dict takes its name and city from the last
    company of the list with its ticker. *)
Theorem weekly_enriched_tickers companies quotes prev :
  let r := build_rankings companies quotes prev in
  ticker <$> enriched_of r
  ≡ₚ filter (λ t, t ∈ c_ticker <$> companies) (symbol_of <$> quotes) ∧
  (length (enriched_of r) ≤ length quotes)%nat ∧
  ∀ s, s ∈ enriched_of r →
       ∃ c, last (filter (λ c, c_ticker c = ticker s) companies) = Some c ∧
            name s = c_name c ∧ city s = c_city c.
Proof.
  cbv zeta.
  assert (ticker <$> enriched_of (build_rankings companies quotes prev)
          ≡ₚ filter (λ t, t ∈ c_ticker <$> companies)
               (symbol_of <$> quotes)) as Hperm.
  { rewrite enriched_of_perm, (heap_fmap _ _ _ ticker) by done.
    rewrite new_stock_tickers.
    rewrite (list_filter_iff _ (λ t, t ∈ c_ticker <$> companies)); [done|].
    intros t. apply company_map_is_Some. }
  split_and!; [done | |].
  - rewrite <- (length_fmap ticker), Hperm, <- (length_fmap symbol_of quotes).
    apply length_filter.
  - intros s Hs.
    destruct (enriched_of_origin _ _ _ _ Hs) as (q & s0 & Hq & Hnew & Heq).
    unfold new_stock in Hnew.
    destruct (company_map companies !! symbol_of q) as [meta|] eqn:Hmeta; [|done].
    injection Hnew as <-. rewrite company_map_last in Hmeta.
    destruct s. injection Heq as -> -> -> _ _.
    exists meta. by split_and!.
Qed.

(** The lookup formula of [current_prices], for the proofs below. *)
Lemma weekly_current_prices_lookup companies quotes prev t :
  current_prices (build_rankings companies quotes prev) !! t
  = if decide (t ∈ c_ticker <$> companies) then
      current_price_of <$> last (filter (λ q, symbol_of q = t) quotes)
    else None.
Proof.
  unfold build_rankings, enrich_loop. cbn [current_prices].
  rewrite enrich_loop_prices. cbn [ls_current_prices].
  rewrite (foldl_insert_last symbol_of current_price_of), lookup_empty.
  rewrite list_filter_filter.
  case_decide as Hknown.
  - apply company_map_is_Some in Hknown.
    rewrite (list_filter_iff _ (λ q, symbol_of q = t)); [by destruct (last _)|].
    intros q. split; [by intros [??] | intros <-; by split].
  - rewrite filter_none; [done|].
    intros q _ [<- Hq]. by apply Hknown, company_map_is_Some.
Qed.

(** [current_prices] holds, for every ticker of the company list that has a
    quote, the current price of its last quote, and no other key: its keys
    are the tickers of the enriched dicts, and what [build_rankings] got as
    previous prices leaves no trace in it. *)
Theorem weekly_current_prices companies quotes prev :
  let r := build_rankings companies quotes prev in
  (∀ t, current_prices r !! t
        = if decide (t ∈ c_ticker <$> companies) then
            current_price_of <$> last (filter (λ q, symbol_of q = t) quotes)
          else None) ∧
  dom (current_prices r) = list_to_set (ticker <$> enriched_of r) ∧
  (∀ t p, current_prices r !! t = Some p →
          ∃ s, s ∈ enriched_of r ∧ ticker s = t ∧ price s = p).
Proof.
  cbv zeta.
  assert (∀ t, current_prices (build_rankings companies quotes prev) !! t
        = if decide (t ∈ c_ticker <$> companies) then
            current_price_of <$> last (filter (λ q, symbol_of q = t) quotes)
          else None) as Hlookup.
  { intros t. apply weekly_current_prices_lookup. }
  assert (∀ t p, current_prices (build_rankings companies quotes prev) !! t = Some p →
          ∃ s, s ∈ enriched_of (build_rankings companies quotes prev)
               ∧ ticker s = t ∧ price s = p) as Hvalue.
  { intros t p. rewrite Hlookup. case_decide as Hknown; [|done].
    destruct (last _) as [q|] eqn:Hlast; [|done]. intros [= <-].
    apply last_Some_elem_of, list_elem_of_filter in Hlast as [<- Hq].
    apply company_map_is_Some in Hknown as [meta Hmeta].
    destruct (new_stock (company_map companies) prev q) as [s0|] eqn:Hnew.
    2:{ unfold new_stock in Hnew. by rewrite Hmeta in Hnew. }
    destruct (enriched_of_quote _ _ _ _ _ Hq Hnew) as (s & Hs & Heq).
    destruct (new_stock_fields _ _ _ _ _ Hnew Heq) as (_ & Ht & Hp & _).
    by exists s. }
  split_and!; [done | | done].
  apply set_eq. intros t. rewrite elem_of_dom, elem_of_list_to_set. split.
  - intros [p (s & Hs & <- & _)%Hvalue]. by apply list_elem_of_fmap_2.
  - intros (s & -> & Hs)%list_elem_of_fmap.
    destruct (enriched_of_origin _ _ _ _ Hs) as (q & s0 & Hq & Hnew & Heq).
    destruct (new_stock_fields _ _ _ _ _ Hnew Heq) as (Hknown & Ht & _).
    rewrite Hlookup, Ht.
    rewrite decide_True by (by apply company_map_is_Some).
    destruct (last _) as [q'|] eqn:Hlast; [by eexists|].
    apply last_None in Hlast.
    assert (q ∈ filter (λ q0, symbol_of q0 = symbol_of q) quotes) as Hin
      by (by apply list_elem_of_filter).
    rewrite Hlast in Hin. by apply elem_of_nil in Hin.
Qed.

(** Two builds in a row on the same quotes: when no symbol is quoted twice,
    the second build, fed the prices the first one saved, reports a change
    of 0 for every stock with a price above 0. *)
Theorem weekly_unchanged_prices_no_change companies quotes prev :
  NoDup (symbol_of <$> quotes) →
  let r1 := build_rankings companies quotes prev in
  let r2 := build_rankings companies quotes (current_prices r1) in
  ∀ s, s ∈ enriched_of r2 → 0 < price s → change_pct s = 0.
Proof.
  intros Hnd r1 r2 s Hs Hpos. subst r1 r2.
  destruct (enriched_of_origin _ _ _ _ Hs) as (q & s0 & Hq & Hnew & Heq).
  destruct (new_stock_fields _ _ _ _ _ Hnew Heq) as (Hknown & Ht & Hp & _ & ->).
  pose proof (weekly_current_prices_lookup companies quotes prev (symbol_of q))
    as Hlookup.
  rewrite decide_True in Hlookup by (by apply company_map_is_Some).
  rewrite (filter_key_NoDup symbol_of quotes q Hnd Hq) in Hlookup.
  cbn [last fmap option_fmap option_map] in Hlookup.
  rewrite (week_change_of_previous _ _ _ _ _ Hlookup) by (by rewrite <- Hp).
  apply round_zero_num, unchanged_price_num.
Qed.

End EnrichFacts.

(** * Ties *)

Section filter_facts.
Lemma filter_fmap {A B} (f : A → B) (P : B → Prop) `{!∀ y, Decision (P y)}
    (l : list A) :
  filter P (f <$> l) = f <$> filter (λ x, P (f x)) l.
Proof.
  induction l as [|x l IH]; [done|]. rewrite fmap_cons, !filter_cons.
  destruct (decide (P (f x))); by rewrite ?fmap_cons, IH.
Qed.

Lemma head_take_S {A} n (l : list A) : head (take (S n) l) = head l.
Proof. by destruct l. Qed.
End filter_facts.

Module TieFacts.
Import Weekly WeeklyFacts EnrichFacts.

Section weekly_ties.
Context (companies : list company) (quotes : list quote) (prev : gmap string Q).
Local Abbreviation h0 := (omap (new_stock (company_map companies) prev) quotes).
Local Abbreviation res := (build_rankings companies quotes prev).

(** The dicts of one [change_pct] among those named by [refs]. *)
Lemma pct_filter_deref k refs :
  filter (λ s, change_pct s == k) (deref (heap res) refs)
  = deref (heap res) (filter (λ x, change_key h0 x == k) refs).
Proof.
  unfold deref. rewrite filter_fmap. f_equal.
  apply list_filter_iff. intros x. unfold change_key.
  by rewrite (heap_preserves _ _ _ change_pct).
Qed.

Lemma pct_filter_heap k :
  filter (λ s, change_pct s == k) (heap res)
  = deref (heap res) (filter (λ x, change_key h0 x == k) (seq 0 (length h0))).
Proof.
  rewrite <- pct_filter_deref, <- (length_heap companies quotes prev).
  by rewrite deref_seq.
Qed.

Lemma enriched_stable k :
  filter (λ x, change_key h0 x == k) (enriched res)
  = filter (λ x, change_key h0 x == k) (seq 0 (length h0)).
Proof.
  destruct (build_rankings_unfold companies quotes prev) as (-> & _).
  apply sorted_reverse_stable.
Qed.

Lemma losers_stable k :
  ∃ l, losers res = take 25 l ∧
       filter (λ x, change_key h0 x == k) l
       = filter (λ x, change_key h0 x == k) (seq 0 (length h0)).
Proof.
  destruct (build_rankings_unfold companies quotes prev) as (_ & _ & Hl & _).
  eexists. split; [exact Hl|].
  rewrite <- enriched_stable.
  assert (∀ x, change_key (assign_ranks set_rank 1 (gainers res) h0) x == k
               ↔ change_key h0 x == k) as Hkey.
  { intros x. unfold change_key.
    by rewrite (assign_ranks_preserves_total set_rank change_pct). }
  rewrite <- (list_filter_iff _ _ _ Hkey), <- (list_filter_iff _ _ _ Hkey).
  apply sorted_stable.
Qed.
End weekly_ties.

(** Ties in the weekly rankings.  The store lists the dicts in the order of
    their quotes.  Dicts of equal [change_pct] stand in that order in
    [enriched], of which [gainers] is the first 25, and also in the
    ascending list of which [losers] is the first 25: the losers are not the
    gainers read backwards.  So the spotlight gainer is the first quoted of
    the stocks with the greatest change, and the spotlight loser the first
    quoted of those with the least. *)
Theorem weekly_ties_keep_quote_order companies quotes prev :
  let r := build_rankings companies quotes prev in
  let same k := λ s, change_pct s == k in
  ticker <$> heap r
  = filter (λ t, t ∈ c_ticker <$> companies) (symbol_of <$> quotes) ∧
  (∀ k, filter (same k) (enriched_of r) = filter (same k) (heap r)) ∧
  gainers_of r = take 25 (enriched_of r) ∧
  (∀ k, ∃ l, losers_of r = take 25 l ∧ filter (same k) l = filter (same k) (heap r)) ∧
  (∀ g, spotlight_gainer r = Some g →
        head (filter (same (change_pct g)) (heap r)) = Some g) ∧
  (∀ l, spotlight_loser r = Some l →
        head (filter (same (change_pct l)) (heap r)) = Some l).
Proof.
  cbv zeta.
  pose proof (build_rankings_unfold companies quotes prev) as Hu.
  cbv zeta in Hu. destruct Hu as (_ & Hg & _).
  assert (∀ k, filter (λ s, change_pct s == k)
                 (enriched_of (build_rankings companies quotes prev))
               = filter (λ s, change_pct s == k)
                   (heap (build_rankings companies quotes prev))) as Hen.
  { intros k. unfold enriched_of.
    by rewrite pct_filter_deref, pct_filter_heap, enriched_stable. }
  assert (gainers_of (build_rankings companies quotes prev)
          = take 25 (enriched_of (build_rankings companies quotes prev))) as Hgo.
  { unfold gainers_of, enriched_of, deref. by rewrite Hg, fmap_take. }
  assert (∀ k, ∃ l, losers_of (build_rankings companies quotes prev) = take 25 l ∧
            filter (λ s, change_pct s == k) l
            = filter (λ s, change_pct s == k)
                (heap (build_rankings companies quotes prev))) as Hlo.
  { intros k. destruct (losers_stable companies quotes prev k) as (l & Hl & Hst).
    exists (deref (heap (build_rankings companies quotes prev)) l). split.
    - unfold losers_of, deref. by rewrite Hl, fmap_take.
    - by rewrite pct_filter_deref, pct_filter_heap, Hst. }
  split_and!; [ | done | done | done | |].
  - rewrite (heap_fmap _ _ _ ticker) by done. rewrite new_stock_tickers.
    apply list_filter_iff. intros t. apply company_map_is_Some.
  - intros g. unfold spotlight_gainer. rewrite Hgo, head_take_S. intros Hhead.
    rewrite <- Hen.
    destruct (enriched_of _) as [|g' l]; [done|]. injection Hhead as ->.
    by rewrite filter_cons_True.
  - intros l. unfold spotlight_loser. intros Hhead.
    destruct (Hlo (change_pct l)) as (L & HL & Hst).
    rewrite HL, head_take_S in Hhead. rewrite <- Hst.
    destruct L as [|l' L]; [done|]. injection Hhead as ->.
    by rewrite filter_cons_True.
Qed.

(** Three stocks with the same change: gainers and losers list them in the
    same order, and the two spotlights are the same stock. *)
Example weekly_ties_example :
  let r := build_rankings (WeeklyExamples.co <$> ["A"; "B"; "C"])
             [WeeklyExamples.qu "A" 100 50; WeeklyExamples.qu "B" 100 50;
              WeeklyExamples.qu "C" 100 50]
             {[ "A" := 100; "B" := 100; "C" := 100 ]} in
  ticker <$> gainers_of r = ["A"; "B"; "C"] ∧
  ticker <$> losers_of r = ["A"; "B"; "C"] ∧
  ticker <$> spotlight_gainer r = Some "A" ∧
  ticker <$> spotlight_loser r = Some "A".
Proof. vm_compute. done. Qed.

(** Ties in [find_spotlight_stocks]: the gainer is the first, in the order
    of the input, of the stocks with the greatest change, and the loser is
    the last of those with the least. *)
Theorem top25_spotlight_ties (e : list Top25.stock) :
  (∀ g, (Top25.find_spotlight_stocks e).1 = Some g →
        head (filter (λ s, Top25.change_pct s == Top25.change_pct g) e) = Some g) ∧
  (∀ l, (Top25.find_spotlight_stocks e).2 = Some l →
        last (filter (λ s, Top25.change_pct s == Top25.change_pct l) e) = Some l).
Proof.
  unfold Top25.find_spotlight_stocks. cbn [fst snd]. split.
  - intros g. apply sorted_reverse_head_first.
  - intros l. apply sorted_reverse_last_last.
Qed.

End TieFacts.

Module EnrichWitness.
Import Weekly WeeklyExamples.

Lemma weekly_unchanged_prices_no_change_witness :
  let r1 := build_rankings companies10 quotes10 ∅ in
  let r2 := build_rankings companies10 quotes10 (current_prices r1) in
  change_pct (heap r2 !!! 0%nat) = 0.
Proof.
  apply (EnrichFacts.weekly_unchanged_prices_no_change companies10 quotes10 ∅).
  - apply (bool_decide_unpack (NoDup (symbol_of <$> quotes10))). by vm_compute.
  - apply list_elem_of_lookup. exists 0%nat. by vm_compute.
  - by vm_compute.
Defined.

End EnrichWitness.

(** * The Top-25 variant: the tickers that are kept *)

Module Top25EnrichFacts.
Import Top25 Top25Facts.

Section top25_enrich.
Context (companies : list company) (quotes : list quote).
Local Abbreviation qm := (quote_map quotes).
Local Abbreviation h0 := (omap (new_stock qm) companies).
Local Abbreviation res := (build_enriched_data companies quotes).

(** [quote_map] holds, under each symbol, the last quote of the list with
    that symbol. *)
Lemma quote_map_last t :
  qm !! t = last (filter (λ q, q_symbol q = t) quotes).
Proof.
  unfold quote_map.
  rewrite (foldl_insert_last q_symbol (λ q, q) quotes ∅ t).
  by destruct (last _).
Qed.

Lemma quote_map_is_Some t : is_Some (qm !! t) ↔ t ∈ q_symbol <$> quotes.
Proof.
  rewrite quote_map_last, last_is_Some, list_elem_of_fmap. split.
  - intros Hne. destruct (filter _ quotes) as [|q l] eqn:Hf; [done|].
    assert (q ∈ filter (λ q, q_symbol q = t) quotes) as Hq
      by (rewrite Hf; by left).
    apply list_elem_of_filter in Hq as [??]. eauto.
  - intros (q & Ht & Hq) Hnil. symmetry in Ht.
    assert (q ∈ filter (λ q, q_symbol q = t) quotes) as Hin
      by (by apply list_elem_of_filter).
    rewrite Hnil in Hin. by apply elem_of_nil in Hin.
Qed.

Lemma top25_heap_fmap {B} (f : stock → B) :
  (∀ j s, f (set_rank j s) = f s) → f <$> heap res = f <$> h0.
Proof.
  intros Hf. apply list_eq. intros i. rewrite !list_lookup_fmap.
  pose proof (top25_length_heap companies quotes) as Hlen.
  pose proof (top25_heap_preserves companies quotes f i Hf) as Hi.
  rewrite !list_lookup_total_alt in Hi.
  destruct (heap res !! i) as [s|] eqn:Hs, (h0 !! i) as [s0|] eqn:Hs0;
    simpl in *; [by rewrite Hi | | | done].
  - apply lookup_lt_Some in Hs. apply lookup_ge_None in Hs0. lia.
  - apply lookup_lt_Some in Hs0. apply lookup_ge_None in Hs. lia.
Qed.

Lemma top25_enriched_of_perm : enriched_of res ≡ₚ heap res.
Proof.
  unfold enriched_of.
  rewrite <- (deref_seq (heap res)) at 2.
  unfold deref. apply fmap_Permutation.
  rewrite top25_enriched_perm, top25_length_heap. done.
Qed.

Lemma top25_new_stock_tickers :
  ticker <$> h0 = filter (λ t, is_Some (qm !! t)) (c_ticker <$> companies).
Proof.
  induction companies as [|c cs IH]; [done|]. csimpl.
  rewrite filter_cons. unfold new_stock at 1.
  destruct (qm !! c_ticker c) as [q|] eqn:Hq.
  - rewrite decide_True by eauto. csimpl. by rewrite IH.
  - rewrite decide_False by (by intros [??]). done.
Qed.

(** Order of the market caps the sort compares. *)
Lemma top25_enriched_stable k :
  filter (λ x, cap_key h0 x == k) (enriched res)
  = filter (λ x, cap_key h0 x == k) (seq 0 (length h0)).
Proof.
  destruct (build_enriched_data_unfold companies quotes) as (-> & _).
  apply sorted_reverse_stable.
Qed.
End top25_enrich.

Lemma top25_enriched_tickers_perm companies quotes :
  ticker <$> enriched_of (build_enriched_data companies quotes)
  ≡ₚ filter (λ t, t ∈ q_symbol <$> quotes) (c_ticker <$> companies).
Proof.
  rewrite top25_enriched_of_perm, (top25_heap_fmap _ _ ticker) by done.
  rewrite top25_new_stock_tickers.
  rewrite (list_filter_iff _ (λ t, t ∈ q_symbol <$> quotes)); [done|].
  intros t. apply quote_map_is_Some.
Qed.

Lemma top25_enriched_price_last companies quotes s :
  s ∈ enriched_of (build_enriched_data companies quotes) →
  ∃ q, last (filter (λ q, q_symbol q = ticker s) quotes) = Some q ∧
       price s = current_price_of q.
Proof.
  intros Hs.
  destruct (top25_enriched_of_origin _ _ _ Hs) as (c & s0 & Hc & Hnew & Heq).
  destruct (top25_new_stock_fields _ _ _ _ Hnew Heq) as (q & Hq & Ht & Hp & _).
  exists q. rewrite Ht, <- quote_map_last. by split.
Qed.

(** [build_enriched_data] keeps the companies that have a quote, one dict
    for each (no ticker twice when the company list has none twice), and no
    quote of another ticker; a dict takes its price from the last quote with
    its ticker as symbol. *)
Theorem top25_enriched_tickers companies quotes :
  let d := build_enriched_data companies quotes in
  ticker <$> enriched_of d
  ≡ₚ filter (λ t, t ∈ q_symbol <$> quotes) (c_ticker <$> companies) ∧
  (length (enriched_of d) ≤ length companies)%nat ∧
  (NoDup (c_ticker <$> companies) → NoDup (ticker <$> enriched_of d)) ∧
  ∀ s, s ∈ enriched_of d →
       ∃ q, last (filter (λ q, q_symbol q = ticker s) quotes) = Some q ∧
            price s = current_price_of q.
Proof.
  cbv zeta.
  pose proof (top25_enriched_tickers_perm companies quotes) as Hperm.
  split_and!; [done | | |].
  - rewrite <- (length_fmap ticker), Hperm, <- (length_fmap c_ticker companies).
    apply length_filter.
  - intros Hnd. rewrite Hperm. by apply NoDup_filter.
  - apply top25_enriched_price_last.
Qed.

(** Ties in the market-cap ranking: dicts of equal market cap (a missing or
    zero one counting as 0) stand in the order of the company list, which is
    the order of the store. *)
Theorem top25_ties_keep_company_order companies quotes :
  let d := build_enriched_data companies quotes in
  ticker <$> heap d
  = filter (λ t, t ∈ q_symbol <$> quotes) (c_ticker <$> companies) ∧
  ∀ k, ticker <$> filter (λ s, Py.or_zero (market_cap s) == k) (enriched_of d)
       = ticker <$> filter (λ s, Py.or_zero (market_cap s) == k) (heap d).
Proof.
  cbv zeta. split.
  - rewrite (top25_heap_fmap _ _ ticker) by done.
    rewrite top25_new_stock_tickers.
    apply list_filter_iff. intros t. apply quote_map_is_Some.
  - intros k. f_equal.
    assert (∀ refs,
      filter (λ s, Py.or_zero (market_cap s) == k)
        (deref (heap (build_enriched_data companies quotes)) refs)
      = deref (heap (build_enriched_data companies quotes))
          (filter (λ x, cap_key (omap (new_stock (quote_map quotes)) companies) x
                        == k) refs)) as Hderef.
    { intros refs. unfold deref. rewrite filter_fmap. f_equal.
      apply list_filter_iff. intros x. unfold cap_key.
      by rewrite (top25_heap_preserves _ _ market_cap). }
    unfold enriched_of. rewrite Hderef, top25_enriched_stable, <- Hderef.
    by rewrite <- (top25_length_heap companies quotes), deref_seq.
Qed.

End Top25EnrichFacts.

(** * Rounding and division *)

Section rounding_facts.

(** Rounding never crosses an integer. *)
Lemma round_half_even_lower (x : Q) (m : Z) :
  inject_Z m <= x → (m ≤ Py.round_half_even x)%Z.
Proof.
  destruct x as [n d]. unfold Qle, Py.round_half_even. cbn [Qnum Qden inject_Z].
  intros Hle. rewrite Z.mul_1_r in Hle.
  assert (m ≤ n `div` Z.pos d)%Z as Hq
    by (apply Z.div_le_lower_bound; lia).
  destruct (2 * (n `mod` Z.pos d) ?= Z.pos d)%Z; [|lia..].
  destruct (Z.even _); lia.
Qed.

Lemma round_half_even_upper (x : Q) (m : Z) :
  x <= inject_Z m → (Py.round_half_even x ≤ m)%Z.
Proof.
  destruct x as [n d]. unfold Qle, Py.round_half_even. cbn [Qnum Qden inject_Z].
  intros Hle. rewrite Z.mul_1_r in Hle.
  pose proof (Z.div_mod n (Z.pos d) ltac:(lia)) as Hdm.
  pose proof (Z.mod_pos_bound n (Z.pos d) ltac:(lia)) as Hr.
  assert (n `div` Z.pos d ≤ m)%Z as Hq by nia.
  destruct (Z.compare_spec (2 * (n `mod` Z.pos d)) (Z.pos d)) as [He|Hlt|Hgt].
  - destruct (Z.even _); [lia|]. nia.
  - lia.
  - nia.
Qed.

Lemma pow10_pos nd : (0 < Py.pow10 nd)%Z.
Proof. unfold Py.pow10. apply Z.pow_pos_nonneg; lia. Qed.

Lemma round_lower x (m : Z) nd : inject_Z m <= x → inject_Z m <= Py.round x nd.
Proof.
  intros Hle. unfold Py.round. rewrite Qred_correct.
  pose proof (pow10_pos nd) as Hp.
  assert (0 < inject_Z (Py.pow10 nd)) as HP
    by (change 0 with (inject_Z 0); by rewrite <- Zlt_Qlt).
  apply Qle_shift_div_l; [done|].
  rewrite <- inject_Z_mult, <- Zle_Qle. apply round_half_even_lower.
  rewrite inject_Z_mult. apply Qmult_le_compat_r; [done|]. by apply Qlt_le_weak.
Qed.

Lemma round_upper x (m : Z) nd : x <= inject_Z m → Py.round x nd <= inject_Z m.
Proof.
  intros Hle. unfold Py.round. rewrite Qred_correct.
  pose proof (pow10_pos nd) as Hp.
  assert (0 < inject_Z (Py.pow10 nd)) as HP
    by (change 0 with (inject_Z 0); by rewrite <- Zlt_Qlt).
  apply Qle_shift_div_r; [done|].
  rewrite <- inject_Z_mult, <- Zle_Qle. apply round_half_even_upper.
  rewrite inject_Z_mult. apply Qmult_le_compat_r; [done|]. by apply Qlt_le_weak.
Qed.

(** A relative change in percent: at least -100 for a price that is not
    negative, and of the sign of the move. *)
Lemma percent_bounds (cur base : Q) :
  0 < base →
  (0 <= cur → -100 <= (cur - base) / base * 100) ∧
  (base <= cur → 0 <= (cur - base) / base * 100) ∧
  (cur <= base → (cur - base) / base * 100 <= 0).
Proof.
  intros Hb.
  assert ((cur - base) / base * 100 == (cur / base - 1) * 100) as ->
    by (field; lra).
  assert (0 <= cur → 0 <= cur / base) as H0.
  { intros. apply Qle_shift_div_l; [done|]. lra. }
  assert (base <= cur → 1 <= cur / base) as H1.
  { intros. apply Qle_shift_div_l; [done|]. lra. }
  assert (cur <= base → cur / base <= 1) as H2.
  { intros. apply Qle_shift_div_r; [done|]. lra. }
  split_and!; intros H.
  - specialize (H0 H). lra.
  - specialize (H1 H). lra.
  - specialize (H2 H). lra.
Qed.

Lemma truediv_positive x y : 0 < y → Arith.truediv x y = Some (x / y).
Proof.
  intros Hy. unfold Arith.truediv.
  destruct (Qeq_bool y 0) eqn:E; [|done].
  apply Qeq_bool_iff in E. rewrite E in Hy. by apply Qlt_irrefl in Hy.
Qed.

End rounding_facts.

Module ArithFacts.

(** No percentage computation divides by zero: the checked computations
    return, and return what the unchecked ones compute. *)
Theorem no_division_by_zero :
  (∀ prev t cp q,
     Arith.weekly_week_change prev t cp q
     = Some (Weekly.week_change_of prev t cp q)) ∧
  (∀ cp q, Arith.top25_week_change cp q = Some (Top25.week_change_of cp q)) ∧
  (∀ s, is_Some (Arith.compute_52_week_change s)).
Proof.
  split_and!.
  - intros prev t cp q. unfold Arith.weekly_week_change, Weekly.week_change_of.
    destruct (prev !! t) as [p|]; simpl.
    + destruct (Py.gt p 0) eqn:E.
      * apply gt_true in E. by rewrite truediv_positive.
      * destruct (Py.truthy_and_positive _) eqn:Ey; [|done].
        apply truthy_and_positive_true in Ey as (yl & -> & Hyl). simpl.
        rewrite truediv_positive by done. simpl. by rewrite truediv_positive.
    + destruct (Py.truthy_and_positive _) eqn:Ey; [|done].
      apply truthy_and_positive_true in Ey as (yl & -> & Hyl). simpl.
      rewrite truediv_positive by done. simpl. by rewrite truediv_positive.
  - intros cp q. unfold Arith.top25_week_change, Top25.week_change_of.
    destruct (Py.truthy_and_positive _) eqn:Ew; [|done].
    apply truthy_and_positive_true in Ew as (w & -> & Hw). simpl.
    by rewrite truediv_positive.
  - intros s. unfold Arith.compute_52_week_change.
    destruct (Py.truthy_and_positive _) eqn:Ey; [|by eexists].
    apply truthy_and_positive_true in Ey as (yl & -> & Hyl). simpl.
    rewrite truediv_positive by done. by eexists.
Qed.


(** The weekly change of an enriched dict is at least -100 for a price that
    is not negative, and has the sign of the move from the previous price;
    so has the 7-day change of the Top-25 variant. *)
Theorem change_pct_bounds :
  (∀ companies quotes prev s p,
     s ∈ Weekly.enriched_of (Weekly.build_rankings companies quotes prev) →
     prev !! Weekly.ticker s = Some p → 0 < p →
     (0 <= Weekly.price s → -100 <= Weekly.change_pct s) ∧
     (p <= Weekly.price s → 0 <= Weekly.change_pct s) ∧
     (Weekly.price s <= p → Weekly.change_pct s <= 0)) ∧
  (∀ cp q w,
     Py.get (Top25.q_week_ago_price q) = Some w → 0 < w →
     let v := Py.round (Top25.week_change_of cp q) 2 in
     (0 <= cp → -100 <= v) ∧ (w <= cp → 0 <= v) ∧ (cp <= w → v <= 0)).
Proof.
  split.
  - intros companies quotes prev s p Hs Hp Hpos.
    destruct (WeeklyFacts.enriched_of_origin _ _ _ _ Hs)
      as (q & s0 & Hq & Hnew & Heq).
    destruct (WeeklyFacts.new_stock_fields _ _ _ _ _ Hnew Heq)
      as (_ & Ht & Hpr & _ & ->).
    rewrite Ht in Hp.
    rewrite (WeeklyFacts.week_change_of_previous _ _ _ _ p Hp Hpos), Hpr.
    destruct (percent_bounds (Weekly.current_price_of q) p Hpos) as (H1 & H2 & H3).
    split_and!; intros H.
    + apply (round_lower _ (-100)). by apply H1.
    + apply (round_lower _ 0). by apply H2.
    + apply (round_upper _ 0). by apply H3.
  - intros cp q w Hw Hpos. cbv zeta. unfold Top25.week_change_of. rewrite Hw.
    assert (Py.truthy_and_positive (Some w) = true) as ->
      by (apply truthy_and_positive_true; eauto).
    simpl. destruct (percent_bounds cp w Hpos) as (H1 & H2 & H3).
    split_and!; intros H.
    + apply (round_lower _ (-100)). by apply H1.
    + apply (round_lower _ 0). by apply H2.
    + apply (round_upper _ 0). by apply H3.
Qed.

End ArithFacts.

(** * Fetching quotes *)

Section length_filter_facts.
Lemma filter_ext_in {A} (P Q : A → Prop) `{!∀ x, Decision (P x)}
    `{!∀ x, Decision (Q x)} (l : list A) :
  (∀ x, x ∈ l → P x ↔ Q x) → filter P l = filter Q l.
Proof.
  induction l as [|x l IH]; intros Hl; [done|]. rewrite !filter_cons.
  rewrite IH by (intros y Hy; apply Hl; by right).
  destruct (decide (P x)) as [HP|HP], (decide (Q x)) as [HQ|HQ]; try done.
  - destruct HQ. apply Hl; [by left | done].
  - destruct HP. apply Hl; [by left | done].
Qed.

Lemma length_filter_all {A} (P : A → Prop) `{!∀ x, Decision (P x)} (l : list A) :
  length (filter P l) = length l ↔ Forall P l.
Proof.
  induction l as [|x l IH]; [by split; [constructor|]|].
  rewrite filter_cons. pose proof (length_filter P l) as Hle.
  destruct (decide (P x)); simpl.
  - rewrite Forall_cons. split.
    + intros [= Hlen]. split; [done | by apply IH].
    + intros [_ Hall]. f_equal. by apply IH.
  - split; [lia|]. by intros [??]%Forall_cons.
Qed.
End length_filter_facts.

Module Top25PipelineFacts.
Import Top25 Provider Top25Pipeline.

Section fetch.
Context (provider : string → option fetched).

(** The quote a ticker gets, if any. *)
Lemma fetch_loop st tickers :
  foldl (fetch_step provider) st tickers
  = (st.1 ++ omap (λ t, f ← provider t;
                        if usable f then Some (quote_of t f) else None) tickers,
     st.2 ++ filter (λ t, raised provider t = true) tickers).
Proof.
  revert st. induction tickers as [|t ts IH]; intros [qs fl].
  - by rewrite !app_nil_r.
  - cbn [foldl]. rewrite IH, filter_cons. unfold fetch_step. csimpl.
    case_decide as Hr; unfold raised in Hr;
      destruct (provider t) as [f|]; simpl in *; try done.
    + by rewrite <- app_assoc.
    + destruct (usable f); simpl; by rewrite <- ?app_assoc.
Qed.

Lemma fetch_symbols tickers :
  q_symbol <$> (fetch_quotes provider tickers).1
  = filter (λ t, quoted provider t = true) tickers.
Proof.
  unfold fetch_quotes. rewrite fetch_loop. cbn [fst app].
  induction tickers as [|t ts IH]; [done|]. csimpl.
  rewrite filter_cons. case_decide as Hq; unfold quoted in Hq;
    destruct (provider t) as [f|]; simpl in *; try done.
  - rewrite Hq. csimpl. by rewrite IH.
  - by destruct (usable f).
Qed.

Lemma fetch_prices tickers q :
  q ∈ (fetch_quotes provider tickers).1 →
  ∃ p, q_price q = Py.Num p ∧ 0 < p ∧ current_price_of q = p.
Proof.
  unfold fetch_quotes. rewrite fetch_loop. cbn [fst app].
  intros (t & Ht & Hq)%list_elem_of_omap.
  destruct (provider t) as [f|]; simpl in Hq; [|done].
  destruct (usable f) eqn:Hu; [|done]. injection Hq as <-.
  apply truthy_and_positive_true in Hu as (p & Hp & Hpos).
  exists p. unfold current_price_of, quote_of. cbn [q_price]. rewrite Hp.
  split_and!; [done..|]. simpl. by rewrite positive_truthy.
Qed.
End fetch.

(** [fetch_quotes] of the Top-25 variant.  Every quote it returns has a
    price above 0; the symbols of the quotes are, in order, the tickers the
    provider answered with such a price, and [failed] are, in order, the
    tickers for which it raised.  A ticker answered with a price that is
    [None], zero or negative is in neither list: it is dropped and not
    reported. *)
Theorem top25_fetch_quotes_spec provider tickers :
  let quotes := (fetch_quotes provider tickers).1 in
  let failed := (fetch_quotes provider tickers).2 in
  (∀ q, q ∈ quotes → ∃ p, q_price q = Py.Num p ∧ 0 < p) ∧
  q_symbol <$> quotes = filter (λ t, quoted provider t = true) tickers ∧
  failed = filter (λ t, raised provider t = true) tickers ∧
  (∀ t, dropped provider t = true →
        ¬ t ∈ q_symbol <$> quotes ∧ ¬ t ∈ failed) ∧
  (length quotes
   + (length failed + length (filter (λ t, dropped provider t = true) tickers))
   = length tickers)%nat.
Proof.
  cbv zeta.
  pose proof (fetch_symbols provider tickers) as Hsym.
  assert ((fetch_quotes provider tickers).2
          = filter (λ t, raised provider t = true) tickers) as Hfailed.
  { unfold fetch_quotes. by rewrite fetch_loop. }
  split_and!; [ | done | done | |].
  - intros q Hq. destruct (fetch_prices provider tickers q Hq) as (p & ? & ? & _).
    eauto.
  - intros t Hd. rewrite Hsym, Hfailed, !list_elem_of_filter.
    unfold dropped, quoted, raised in *.
    destruct (provider t) as [f|]; [|done].
    destruct (usable f); [done|]. split; by intros [??].
  - rewrite <- (length_fmap q_symbol), Hsym, Hfailed.
    clear. induction tickers as [|t ts IH]; [done|].
    rewrite !filter_cons.
    repeat case_decide; unfold quoted, raised, dropped in *;
      destruct (provider t) as [f|]; try destruct (usable f);
      simpl in *; try done; lia.
Qed.

Section main.
Context (provider : string → option fetched) (companies : list company).
Local Abbreviation tickers := (c_ticker <$> companies).
Local Abbreviation quotes := ((fetch_quotes provider tickers).1).
Local Abbreviation failed := ((fetch_quotes provider tickers).2).
Local Abbreviation res := (build_enriched_data companies quotes).

(** Every company whose ticker was quoted is enriched, and no other: the
    enriched entries are as many as the quotes. *)
Lemma main_length_enriched : length (enriched_of res) = length quotes.
Proof.
  pose proof (Top25EnrichFacts.top25_enriched_tickers_perm companies quotes)
    as Hperm.
  rewrite <- (length_fmap ticker), Hperm, <- (length_fmap q_symbol quotes).
  rewrite fetch_symbols. f_equal.
  apply filter_ext_in. intros t Ht. rewrite list_elem_of_filter.
  split; [by intros [??] | done].
Qed.

Lemma main_prices_positive : Forall (λ s, 0 < price s) (enriched_of res).
Proof.
  apply Forall_forall. intros s Hs.
  destruct (Top25EnrichFacts.top25_enriched_price_last companies quotes s Hs)
    as (q & Hlast & ->).
  apply last_Some_elem_of, list_elem_of_filter in Hlast as [_ Hq].
  destruct (fetch_prices provider tickers q Hq) as (p & _ & Hpos & ->). done.
Qed.

Lemma main_check_prices : prices_positive (enriched_of res) = true.
Proof.
  unfold prices_positive. apply forallb_forall. intros p Hp.
  apply list_elem_of_In, list_elem_of_fmap in Hp as (s & -> & Hs).
  pose proof main_prices_positive as Hall. rewrite Forall_forall in Hall.
  by apply gt_true, Hall.
Qed.
End main.

End Top25PipelineFacts.

Module Top25MainFacts.
Import Top25 Provider Top25Pipeline Top25PipelineFacts.

(** Whatever the provider answers for each ticker, [main] of the Top-25
    variant raises nothing between the fetch loop and the call of
    [render_site], and ends in one of three ways.  It stops for too few
    quotes below 20 quotes.  Otherwise the enriched entries are as many as the
    quotes and all have a price above 0, so check 2 never fails: validation
    fails exactly when the quotes are not 25, with a first log line that
    reports the count as FAILED and a second that names the tickers for
    which the provider raised, if any, and only them.  With 25 quotes the
    run is published: 25 entries ranked 1 to 25, with a gainer and a loser
    to print. *)
Theorem top25_main_spec provider companies :
  let quotes := (fetch_quotes provider (c_ticker <$> companies)).1 in
  let failed := (fetch_quotes provider (c_ticker <$> companies)).2 in
  match main provider companies with
  | Py.Ok TooFewQuotes => (length quotes < 20)%nat
  | Py.Ok (ValidationFailed log) =>
    (20 ≤ length quotes)%nat ∧ length quotes ≠ 25%nat ∧
    ∃ rest,
      log = ("Tickers fetched: " +:+ pretty (length quotes) +:+ "/25 FAILED")
            :: match failed with
               | [] => rest
               | _ :: _ => ("  Missing: " +:+ Py.join ", " failed) :: rest
               end
  | Py.Ok (Published e g l ph pl log) =>
    length quotes = 25%nat ∧
    e = enriched_of (build_enriched_data companies quotes) ∧
    length e = 25%nat ∧ rank <$> e = seqZ 1 25 ∧
    Forall (λ s, 0 < price s) e ∧ is_Some g ∧ is_Some l ∧
    validate_data e failed = Py.Ok (true, log)
  | Py.Raise _ => False
  end.
Proof.
  cbv zeta. unfold main.
  pose proof (main_length_enriched provider companies) as Hlen.
  pose proof (main_prices_positive provider companies) as Hpos.
  pose proof (main_check_prices provider companies) as Hcheck.
  pose proof (Top25Facts.top25_ranks companies
                (fetch_quotes provider (c_ticker <$> companies)).1) as Hranks.
  destruct (fetch_quotes provider (c_ticker <$> companies)) as [qs fl].
  cbn [fst snd] in *.
  case_bool_decide as Hfew; [done|].
  set (e := enriched_of (build_enriched_data companies qs)) in *.
  assert (e ≠ []) as Hne.
  { intros Hnil. rewrite Hnil in Hlen. simpl in Hlen. lia. }
  pose proof (SpotlightClaims.find_spotlight_stocks_spec e) as Hspot.
  destruct (find_spotlight_stocks e) as [g l].
  destruct (BuildTop25.compute_pe_extremes e) as [ph pl].
  rewrite (Top25Facts.validate_data_nonempty e fl Hne).
  cbn [Py.bind]. rewrite Hcheck, andb_true_r. unfold all_fetched.
  case_bool_decide as H25; cbn [negb].
  - destruct g as [g|], l as [l|]; try done.
    cbn [print_summary Py.bind].
    split_and!; [lia | done | done | | done | by eexists | by eexists |].
    + rewrite Hranks. unfold e, enriched_of, deref in H25.
      rewrite length_fmap in H25. by rewrite H25.
    + rewrite (Top25Facts.validate_data_nonempty e fl Hne), Hcheck.
      unfold all_fetched. by rewrite bool_decide_true.
  - split_and!; [lia | lia |].
    unfold tickers_lines, check_tickers. rewrite bool_decide_false by done.
    rewrite Hlen. destruct fl; cbn [snd app]; eauto.
Qed.

End Top25MainFacts.

(** * The weekly pipeline *)

Module WeeklyPipelineFacts.
Import Weekly Provider WeeklyPipeline.

Section fetch.
Context (provider : string → option fetched).

Lemma weekly_fetch_loop st tickers :
  foldl (fetch_step provider) st tickers
  = (st.1 ++ omap (λ t, f ← provider t;
                        if usable f then Some (quote_of t f) else None) tickers,
     st.2 ++ filter (λ t, raised provider t = true) tickers).
Proof.
  revert st. induction tickers as [|t ts IH]; intros [qs fl].
  - by rewrite !app_nil_r.
  - cbn [foldl]. rewrite IH, filter_cons. unfold fetch_step. csimpl.
    case_decide as Hr; unfold raised in Hr;
      destruct (provider t) as [f|]; simpl in *; try done.
    + by rewrite <- app_assoc.
    + destruct (usable f); simpl; by rewrite <- ?app_assoc.
Qed.

Lemma weekly_fetch_symbols tickers :
  q_symbol <$> fetch_quotes provider tickers
  = Some <$> filter (λ t, quoted provider t = true) tickers.
Proof.
  unfold fetch_quotes. rewrite weekly_fetch_loop. cbn [fst app].
  induction tickers as [|t ts IH]; [done|]. csimpl.
  rewrite filter_cons. case_decide as Hq; unfold quoted in Hq;
    destruct (provider t) as [f|]; simpl in *; try done.
  - rewrite Hq. csimpl. by rewrite IH.
  - by destruct (usable f).
Qed.

Lemma weekly_fetch_prices tickers q :
  q ∈ fetch_quotes provider tickers →
  ∃ p, q_price q = Py.Num p ∧ 0 < p ∧ current_price_of q = p.
Proof.
  unfold fetch_quotes. rewrite weekly_fetch_loop. cbn [fst app].
  intros (t & Ht & Hq)%list_elem_of_omap.
  destruct (provider t) as [f|]; simpl in Hq; [|done].
  destruct (usable f) eqn:Hu; [|done]. injection Hq as <-.
  apply truthy_and_positive_true in Hu as (p & Hp & Hpos).
  exists p. unfold current_price_of, quote_of. cbn [q_price]. rewrite Hp.
  split_and!; [done..|]. simpl. by rewrite positive_truthy.
Qed.

Lemma weekly_fetch_symbol_of tickers :
  symbol_of <$> fetch_quotes provider tickers
  = filter (λ t, quoted provider t = true) tickers.
Proof.
  pose proof (weekly_fetch_symbols tickers) as Hsym.
  apply (inj (fmap Some)). rewrite <- Hsym, <- !list_fmap_compose.
  apply list_fmap_ext. intros i q Hq.
  assert (q_symbol q ∈ q_symbol <$> fetch_quotes provider tickers) as Hin
    by (eapply list_elem_of_fmap_2, list_elem_of_lookup_2; done).
  rewrite Hsym in Hin. apply list_elem_of_fmap in Hin as (t & Ht & _).
  unfold symbol_of. simpl. by rewrite Ht.
Qed.

(** The quotes the program fetches are quotes of companies of the list. *)
Lemma weekly_fetch_of_companies companies :
  quotes_of_companies companies (fetch_quotes provider (c_ticker <$> companies)).
Proof.
  unfold quotes_of_companies. apply Forall_forall. intros q Hq.
  assert (q_symbol q ∈ q_symbol <$> fetch_quotes provider (c_ticker <$> companies))
    as Hin by (by apply list_elem_of_fmap_2).
  rewrite weekly_fetch_symbols in Hin.
  apply list_elem_of_fmap in Hin as (t & Ht & [_ Hin]%list_elem_of_filter).
  apply list_elem_of_fmap in Hin as (c & -> & Hc). eauto.
Qed.
End fetch.

(** [fetch_quotes] of the weekly variant: every quote has a symbol and a
    price above 0; the symbols are, in order, the tickers the provider
    answered with such a price.  The other tickers give no quote, whether
    the provider raised for them (they are printed) or answered with a price
    that is [None], zero or negative (they are not). *)
Theorem weekly_fetch_quotes_spec provider tickers :
  let quotes := fetch_quotes provider tickers in
  (∀ q, q ∈ quotes → ∃ p, q_price q = Py.Num p ∧ 0 < p) ∧
  q_symbol <$> quotes = Some <$> filter (λ t, quoted provider t = true) tickers ∧
  (NoDup tickers → NoDup (symbol_of <$> quotes)) ∧
  (length quotes ≤ length tickers)%nat.
Proof.
  cbv zeta. split_and!.
  - intros q Hq.
    destruct (weekly_fetch_prices provider tickers q Hq) as (p & ? & ? & _). eauto.
  - apply weekly_fetch_symbols.
  - intros Hnd. rewrite weekly_fetch_symbol_of. by apply NoDup_filter.
  - rewrite <- (length_fmap symbol_of), weekly_fetch_symbol_of.
    apply length_filter.
Qed.

End WeeklyPipelineFacts.


Module WeeklyMainFacts.
Import Weekly Provider WeeklyPipeline WeeklyPipelineFacts.

Section main.
Context (provider : string → option fetched) (companies : list company)
  (prev : gmap string Q).
Local Abbreviation tickers := (c_ticker <$> companies).
Local Abbreviation quotes := (fetch_quotes provider tickers).

Lemma fetched_symbol_iff t :
  (∃ q, q ∈ quotes ∧ q_symbol q = Some t)
  ↔ t ∈ tickers ∧ quoted provider t = true.
Proof.
  rewrite (and_comm (t ∈ tickers)).
  rewrite <- (list_elem_of_filter (λ t, quoted provider t = true)).
  rewrite <- (list_elem_of_fmap_inj Some).
  rewrite <- weekly_fetch_symbols, list_elem_of_fmap.
  split; intros (q & ? & ?); by exists q.
Qed.

Lemma fetched_last t :
  t ∈ tickers → quoted provider t = true →
  ∃ q, last (filter (λ q, symbol_of q = t) quotes) = Some q ∧ q ∈ quotes.
Proof.
  intros Ht Hq.
  assert (t ∈ symbol_of <$> quotes) as (q & -> & Hin)%list_elem_of_fmap
    by (rewrite weekly_fetch_symbol_of; by apply list_elem_of_filter).
  destruct (last (filter (λ q', symbol_of q' = symbol_of q) quotes))
    as [q'|] eqn:Hlast.
  - exists q'. split; [done|].
    apply last_Some_elem_of, list_elem_of_filter in Hlast. tauto.
  - apply last_None in Hlast.
    assert (q ∈ filter (λ q', symbol_of q' = symbol_of q) quotes) as Hmem
      by (by apply list_elem_of_filter).
    rewrite Hlast in Hmem. by apply elem_of_nil in Hmem.
Qed.

Lemma saved_price_lookup t :
  current_prices (build_rankings companies quotes prev) !! t
  = if decide (t ∈ tickers ∧ quoted provider t = true) then
      current_price_of <$> last (filter (λ q, symbol_of q = t) quotes)
    else None.
Proof.
  rewrite EnrichFacts.weekly_current_prices_lookup.
  case_decide as Hknown; case_decide as Hq; try done.
  - destruct (last _) as [q|] eqn:Hlast; [|done].
    apply last_Some_elem_of, list_elem_of_filter in Hlast as [Hsym Hin].
    destruct Hq. split; [done|].
    assert (t ∈ symbol_of <$> quotes) as Hmem
      by (rewrite <- Hsym; by apply list_elem_of_fmap_2).
    rewrite weekly_fetch_symbol_of in Hmem.
    by apply list_elem_of_filter in Hmem as [? _].
  - by destruct Hknown, Hq.
Qed.

Lemma saved_price_positive t p :
  current_prices (build_rankings companies quotes prev) !! t = Some p →
  t ∈ tickers ∧ quoted provider t = true ∧ 0 < p.
Proof.
  rewrite saved_price_lookup. case_decide as Hq; [|done].
  destruct Hq as [Ht Hq].
  destruct (fetched_last t Ht Hq) as (q & -> & Hin). intros [= <-].
  destruct (weekly_fetch_prices provider tickers q Hin) as (p & _ & Hpos & ->).
  done.
Qed.

Lemma saved_price_is_Some t :
  t ∈ tickers → quoted provider t = true →
  is_Some (current_prices (build_rankings companies quotes prev) !! t).
Proof.
  intros Ht Hq. rewrite saved_price_lookup, decide_True by done.
  destruct (fetched_last t Ht Hq) as (q & -> & _). by eexists.
Qed.
End main.

(** Whatever the provider answers for each ticker, [main] of the weekly
    variant raises nothing between the fetch loop and the calls of
    [save_price_history] and [render_site].  It stops below 10 quotes.  Otherwise every quote has its
    enriched entry, there are a top gainer and a top loser to print, the
    missing anchors are the anchor tickers without a quote (not in the
    company list, or without a usable price), and the prices saved for the
    next run are one price above 0 for each ticker that has a quote. *)
Theorem weekly_main_spec provider companies prev :
  let tickers := c_ticker <$> companies in
  let quotes := fetch_quotes provider tickers in
  match main provider companies prev with
  | Py.Ok None => (length quotes < 10)%nat
  | Py.Ok (Some b) =>
    (10 ≤ length quotes)%nat ∧
    b_rankings b = build_rankings companies quotes prev ∧
    length (enriched_of (b_rankings b)) = length quotes ∧
    is_Some (spotlight_gainer (b_rankings b)) ∧
    is_Some (spotlight_loser (b_rankings b)) ∧
    (∀ t, t ∈ b_missing_anchors b ↔
          t ∈ Build.ANCHOR_COMPANIES.*1 ∧
          ¬ (t ∈ tickers ∧ quoted provider t = true)) ∧
    (∀ t p, b_saved_prices b !! t = Some p →
            t ∈ tickers ∧ quoted provider t = true ∧ 0 < p) ∧
    (∀ t, t ∈ tickers → quoted provider t = true →
          is_Some (b_saved_prices b !! t))
  | Py.Raise _ => False
  end.
Proof.
  cbv zeta. unfold main.
  set (quotes := fetch_quotes provider (c_ticker <$> companies)).
  pose proof (BuildFacts.missing_anchors_cases quotes) as Hanchor.
  destruct (Build.validate_anchor_companies quotes) as [missing|e].
  2: { destruct Hanchor as (_ & q & Hq & Hnone).
       assert (q_symbol q ∈ q_symbol <$> quotes) as Hin
         by (by apply list_elem_of_fmap_2).
       unfold quotes in Hin. rewrite weekly_fetch_symbols, Hnone in Hin.
       by apply list_elem_of_fmap in Hin as (? & ? & _). }
  cbn [Py.bind]. case_bool_decide as Hfew; [done|].
  pose proof (WeeklyFacts.length_enriched_of companies quotes prev
                (weekly_fetch_of_companies provider companies)) as Hlen.
  pose proof (WeeklyFacts.gainers_head companies quotes prev) as Hg.
  pose proof (WeeklyFacts.losers_head companies quotes prev) as Hl.
  set (res := build_rankings companies quotes prev) in *.
  destruct (Build.compute_pe_extremes (enriched_of res)) as [ph pl].
  unfold spotlight_gainer, spotlight_loser.
  destruct (head (gainers_of res)) as [g|] eqn:Hhg.
  2: { rewrite Hg in Hlen. simpl in Hlen. lia. }
  destruct (head (losers_of res)) as [l|] eqn:Hhl.
  2: { rewrite Hl in Hlen. simpl in Hlen. lia. }
  cbn [print_spotlights Py.bind b_rankings b_missing_anchors b_saved_prices].
  rewrite Hhg, Hhl.
  split_and!; [lia | done | done | by eexists | by eexists | | |].
  - intros t. destruct Hanchor as [_ Hmissing]. rewrite Hmissing.
    rewrite <- fetched_symbol_iff. fold quotes. split.
    + intros [Ha Hno]. split; [done|]. intros (q & Hq & Hsym). by apply (Hno q).
    + intros [Ha Hno]. split; [done|]. intros q Hq Hsym. apply Hno. eauto.
  - apply saved_price_positive.
  - apply saved_price_is_Some.
Qed.


End WeeklyMainFacts.


Module Top25PublishFacts.
Import Top25 Provider Top25Pipeline Top25PipelineFacts.

(** The Top-25 site is published exactly when 25 tickers of the company list
    got a usable price; for a list of 25 companies, exactly when every
    ticker did.  One ticker for which the provider raises, or answers with a
    price that is [None], zero or negative, stops the build. *)
Theorem top25_published_iff provider companies :
  let tickers := c_ticker <$> companies in
  let published :=
    ∃ e g l ph pl log,
      main provider companies = Py.Ok (Published e g l ph pl log) in
  (published ↔ length (filter (λ t, quoted provider t = true) tickers) = 25%nat) ∧
  (length companies = 25%nat →
   published ↔ Forall (λ t, quoted provider t = true) tickers).
Proof.
  cbv zeta.
  assert ((∃ e g l ph pl log,
             main provider companies = Py.Ok (Published e g l ph pl log))
          ↔ length (filter (λ t, quoted provider t = true) (c_ticker <$> companies))
            = 25%nat) as Hiff.
  { rewrite <- fetch_symbols, length_fmap. unfold main.
    pose proof (main_length_enriched provider companies) as Hlen.
    pose proof (main_check_prices provider companies) as Hcheck.
    destruct (fetch_quotes provider (c_ticker <$> companies)) as [qs fl].
    cbn [fst snd] in *.
    case_bool_decide as Hfew.
    { split; [by intros (? & ? & ? & ? & ? & ? & ?) | lia]. }
    set (e := enriched_of (build_enriched_data companies qs)) in *.
    assert (e ≠ []) as Hne.
    { intros Hnil. rewrite Hnil in Hlen. simpl in Hlen. lia. }
    pose proof (SpotlightClaims.find_spotlight_stocks_spec e) as Hspot.
    destruct (find_spotlight_stocks e) as [g l].
    destruct (BuildTop25.compute_pe_extremes e) as [ph pl].
    rewrite (Top25Facts.validate_data_nonempty e fl Hne).
    cbn [Py.bind]. rewrite Hcheck, andb_true_r. unfold all_fetched.
    case_bool_decide as H25; cbn [negb].
    - destruct g as [g|], l as [l|]; try done.
      cbn [print_summary Py.bind]. split; [lia|]. intros _. by repeat eexists.
    - split; [by intros (? & ? & ? & ? & ? & ? & ?) | lia]. }
  split; [done|]. intros H25. rewrite Hiff.
  rewrite <- (length_filter_all (λ t, quoted provider t = true)).
  by rewrite length_fmap, H25.
Qed.

End Top25PublishFacts.
